(** * Reliability layers over a lossy virtual socket

    A shallow embedding of [reliability_on_top_of_udp/main.js]: the CRC-8
    checksum, the JSON envelope, the three acknowledgment layers
    (ACK+NAK, ACK with timeout, NAK only) and the virtual socket that
    drops, delays and corrupts what it carries.

    Conventions.
    - A JavaScript string is represented by its UTF-8 bytes, as a
      [string] of the Standard Library (one [ascii] per byte).  Strings
      holding lone surrogates are outside this representation.
    - A [Buffer] is a list of integers in [0, 255].
    - JavaScript's bit operators work on 32-bit signed integers; they are
      written with [Z.land], [Z.lxor], [Z.shiftl] and an explicit
      wrap-around [toInt32].
    - JavaScript numbers that are not bit patterns (probabilities, delays,
      random draws) are rationals.
    - Closures are first-order data: a closure is a constructor holding the
      variables it captures, and the run-time system is an explicit event
      loop ([step]) over a stack of pending calls and a list of timers. *)

From Stdlib Require Import ZArith QArith Qround Qabs List Bool Lia Lqa.
From Stdlib Require Import Strings.String Strings.Ascii.
From Stdlib Require Import Numbers.DecimalString.
Import ListNotations.

Local Open Scope Z_scope.

(** ** Bytes and strings *)

Definition Buffer := list Z.

Definition byte_of_ascii (c : ascii) : Z := Z.of_N (N_of_ascii c).
Definition ascii_of_byte (b : Z) : ascii := ascii_of_N (Z.to_N b).

Definition bytes_of_string (s : string) : Buffer :=
  map byte_of_ascii (list_ascii_of_string s).
Definition string_of_bytes (b : Buffer) : string :=
  string_of_list_ascii (map ascii_of_byte b).

(** [Buffer.from(data, "utf8")] on a string. *)
Definition Buffer_from (data : string) : Buffer := bytes_of_string data.

(** ** 32-bit integer operators and typed-array stores *)

Definition toInt32 (z : Z) : Z := (z + 2 ^ 31) mod 2 ^ 32 - 2 ^ 31.

(** [x << 1] *)
Definition shl1 (x : Z) : Z := toInt32 (Z.shiftl x 1).

(** [x << n]: the shift count is taken modulo 32. *)
Definition shl (x n : Z) : Z := toInt32 (Z.shiftl x (n mod 32)).

(** A store into a [Uint8Array] keeps the low byte. *)
Definition toUint8 (z : Z) : Z := z mod 256.

(** [buffer[i] ^= m].  Out of range the read gives [undefined] and the
    store is ignored, so the buffer is unchanged. *)
Fixpoint buffer_xor_at (buf : Buffer) (i : nat) (m : Z) : Buffer :=
  match buf, i with
  | [], _ => []
  | b :: bs, O => toUint8 (Z.lxor b m) :: bs
  | b :: bs, S i' => b :: buffer_xor_at bs i' m
  end.

(** [buffer[byteIndex] ^= 1 << bitIndex] *)
Definition flip_bit (buf : Buffer) (byteIndex bitIndex : nat) : Buffer :=
  buffer_xor_at buf byteIndex (shl 1 (Z.of_nat bitIndex)).

(** ** generateCRC8 *)

Definition polynomial : Z := 0x07.

(** One round of the inner loop:
    [crc = (crc & 0x80) ? (crc << 1) ^ polynomial : crc << 1]. *)
Definition crc_round (crc : Z) : Z :=
  if Z.land crc 0x80 =? 0 then shl1 crc else Z.lxor (shl1 crc) polynomial.

(** The body of the outer loop for one byte: [crc ^= byte], then eight
    rounds.  The accumulator is not masked between rounds. *)
Definition crc_byte (crc byte : Z) : Z :=
  Nat.iter 8 crc_round (Z.lxor crc byte).

(** The loop over a buffer, from [crc = 0], and the final [crc & 0xff]. *)
Definition crc8_of_buffer (buf : Buffer) : Z :=
  Z.land (fold_left crc_byte buf 0) 0xff.

Definition generateCRC8 (data : string) : Z :=
  crc8_of_buffer (Buffer_from data).

(** ** Buffer.toString("utf8")

    Decoding replaces every maximal ill-formed subsequence by U+FFFD.
    Since a string is kept as its UTF-8 bytes, decoding is a function
    from bytes to well-formed bytes: well-formed sequences are copied and
    each ill-formed one becomes EF BF BD. *)

Definition replacement : Buffer := [0xEF; 0xBF; 0xBD].

Inductive lead_byte :=
| OneByte
| LeadOf (needed : nat) (lower upper : Z)
| NotALead.

Definition classify (b : Z) : lead_byte :=
  if b <=? 0x7F then OneByte
  else if (0xC2 <=? b) && (b <=? 0xDF) then LeadOf 1 0x80 0xBF
  else if (0xE0 <=? b) && (b <=? 0xEF) then
    LeadOf 2 (if b =? 0xE0 then 0xA0 else 0x80)
             (if b =? 0xED then 0x9F else 0xBF)
  else if (0xF0 <=? b) && (b <=? 0xF4) then
    LeadOf 3 (if b =? 0xF0 then 0x90 else 0x80)
             (if b =? 0xF4 then 0x8F else 0xBF)
  else NotALead.

(** [pending] holds the bytes of the sequence being read, [needed] how
    many continuation bytes it still wants, [lower..upper] the range
    allowed for the next one. *)
Fixpoint utf8_decode (pending : Buffer) (needed : nat) (lower upper : Z)
  (bs : Buffer) : Buffer :=
  match bs with
  | [] => match needed with O => [] | S _ => replacement end
  | b :: rest =>
      let fresh :=
        match classify b with
        | OneByte => b :: utf8_decode [] 0 0x80 0xBF rest
        | LeadOf n lo hi => utf8_decode [b] n lo hi rest
        | NotALead => replacement ++ utf8_decode [] 0 0x80 0xBF rest
        end in
      match needed with
      | O => fresh
      | S n =>
          if (lower <=? b) && (b <=? upper) then
            match n with
            | O => pending ++ b :: utf8_decode [] 0 0x80 0xBF rest
            | S _ => utf8_decode (pending ++ [b]) n 0x80 0xBF rest
            end
          else replacement ++ fresh
      end
  end.

Definition Buffer_toString (buf : Buffer) : string :=
  string_of_bytes (utf8_decode [] 0 0x80 0xBF buf).

(** ** Math.random

    A draw is a rational in [0, 1): [num / (num + gap + 1)]. *)

Record draw := { draw_num : nat; draw_gap : nat }.

Definition draw_val (d : draw) : Q :=
  Z.of_nat (draw_num d) # Pos.of_succ_nat (draw_num d + draw_gap d).

(** [x < y] on numbers *)
Definition Qlt_bool (x y : Q) : bool := negb (Qle_bool y x).

(** [Math.floor(Math.random() * n)] *)
Definition random_index (d : draw) (n : Z) : Z :=
  Qfloor (draw_val d * inject_Z n)%Q.

(** ** introduceBitError

    [r_byte] and [r_bit] are the two draws, in the order the source makes
    them. The console line is produced by the caller in the event loop. *)
Definition introduceBitError (data : string) (r_byte r_bit : draw) : string :=
  let buffer := Buffer_from data in
  let byteIndex := random_index r_byte (Z.of_nat (List.length buffer)) in
  let bitIndex := random_index r_bit 8 in
  Buffer_toString (buffer_xor_at buffer (Z.to_nat byteIndex) (shl 1 bitIndex)).

(** ** JSON.stringify of the envelope [{ data, crc }] *)

Definition dquote : ascii := "034".
Definition backslash : ascii := "092".

Definition hex_digit (n : Z) : ascii :=
  ascii_of_byte (if n <? 10 then 48 + n else 87 + n).

(** QuoteJSONString, one byte at a time: the quote, the backslash and the
    control characters are escaped, everything else is copied. *)
Definition quote_char (c : ascii) : string :=
  let b := byte_of_ascii c in
  if b =? 0x22 then String backslash (String dquote EmptyString)
  else if b =? 0x5C then String backslash (String backslash EmptyString)
  else if b =? 0x08 then String backslash "b"
  else if b =? 0x0C then String backslash "f"
  else if b =? 0x0A then String backslash "n"
  else if b =? 0x0D then String backslash "r"
  else if b =? 0x09 then String backslash "t"
  else if b <? 0x20 then
    String backslash
      ("u00" ++ String (hex_digit (b / 16))
                  (String (hex_digit (b mod 16)) EmptyString))%string
  else String c EmptyString.

Fixpoint quote_chars (s : string) : string :=
  match s with
  | EmptyString => EmptyString
  | String c rest => (quote_char c ++ quote_chars rest)%string
  end.

Definition QuoteJSONString (s : string) : string :=
  String dquote (quote_chars s ++ String dquote EmptyString)%string.

(** Number to string, for the integers [generateCRC8] returns. *)
Definition Number_toString (n : Z) : string :=
  NilZero.string_of_int (Z.to_int n).

(** [JSON.stringify({ data, crc })] *)
Definition JSON_stringify (data : string) (crc : Z) : string :=
  ("{" ++ QuoteJSONString "data" ++ ":" ++ QuoteJSONString data ++
   "," ++ QuoteJSONString "crc" ++ ":" ++ Number_toString crc ++ "}")%string.

(** The packet every [send] builds from its data. *)
Definition make_packet (data : string) : string :=
  JSON_stringify data (generateCRC8 data).

(** ** JSON.parse *)

(** A number literal denotes [mantissa * 10 ^ exponent]. *)
Record number := { mantissa : Z; exponent : Z }.

Unset Elimination Schemes.
Inductive json :=
| JNull
| JBool (b : bool)
| JNumber (n : number)
| JString (s : string)
| JArray (elements : list json)
| JObject (members : list (string * json)).
Set Elimination Schemes.

Definition is_ws (b : Z) : bool :=
  (b =? 0x20) || (b =? 0x09) || (b =? 0x0A) || (b =? 0x0D).

Fixpoint skip_ws (inp : Buffer) : Buffer :=
  match inp with
  | b :: rest => if is_ws b then skip_ws rest else inp
  | [] => []
  end.

Definition is_digit (b : Z) : bool := (48 <=? b) && (b <=? 57).

(** Reads a run of digits into [acc]; returns the value, how many digits
    were read and what follows. *)
Fixpoint read_digits (acc : Z) (count : Z) (inp : Buffer)
  : Z * Z * Buffer :=
  match inp with
  | b :: rest =>
      if is_digit b then read_digits (10 * acc + (b - 48)) (count + 1) rest
      else (acc, count, inp)
  | [] => (acc, count, [])
  end.

(** int: a single 0, or a digit 1-9 followed by digits. *)
Definition read_int (inp : Buffer) : option (Z * Buffer) :=
  match inp with
  | 48 :: rest => Some (0, rest)
  | b :: rest =>
      if is_digit b then
        let '(v, _, rest') := read_digits (b - 48) 1 rest in Some (v, rest')
      else None
  | [] => None
  end.

(** frac: nothing, or a dot followed by at least one digit.  Returns the
    mantissa extended by the fraction digits and their number. *)
Definition read_frac (m : Z) (inp : Buffer) : option (Z * Z * Buffer) :=
  match inp with
  | 46 :: rest =>
      let '(v, n, rest') := read_digits m 0 rest in
      if n =? 0 then None else Some (v, n, rest')
  | _ => Some (m, 0, inp)
  end.

(** exp: nothing, or e/E, an optional sign and at least one digit. *)
Definition read_exp (inp : Buffer) : option (Z * Buffer) :=
  let digits (sign : Z) (rest : Buffer) :=
    let '(v, n, rest') := read_digits 0 0 rest in
    if n =? 0 then None else Some (sign * v, rest') in
  match inp with
  | 101 :: rest | 69 :: rest =>
      match rest with
      | 43 :: rest' => digits 1 rest'
      | 45 :: rest' => digits (-1) rest'
      | _ => digits 1 rest
      end
  | _ => Some (0, inp)
  end.

Definition read_number (inp : Buffer) : option (number * Buffer) :=
  let '(sign, inp1) :=
    match inp with 45 :: rest => (-1, rest) | _ => (1, inp) end in
  match read_int inp1 with
  | None => None
  | Some (i, inp2) =>
      match read_frac i inp2 with
      | None => None
      | Some (m, nfrac, inp3) =>
          match read_exp inp3 with
          | None => None
          | Some (e, inp4) =>
              Some ({| mantissa := sign * m; exponent := e - nfrac |}, inp4)
          end
      end
  end.

Definition hex_value (b : Z) : option Z :=
  if is_digit b then Some (b - 48)
  else if (97 <=? b) && (b <=? 102) then Some (b - 87)
  else if (65 <=? b) && (b <=? 70) then Some (b - 55)
  else None.

Definition hex4 (a b c d : Z) : option Z :=
  match hex_value a, hex_value b, hex_value c, hex_value d with
  | Some x, Some y, Some z, Some w => Some (((x * 16 + y) * 16 + z) * 16 + w)
  | _, _, _, _ => None
  end.

(** UTF-8 of a code point that is not a surrogate. *)
Definition utf8_encode (cp : Z) : Buffer :=
  if cp <? 0x80 then [cp]
  else if cp <? 0x800 then [0xC0 + cp / 64; 0x80 + cp mod 64]
  else if cp <? 0x10000 then
    [0xE0 + cp / 4096; 0x80 + (cp / 64) mod 64; 0x80 + cp mod 64]
  else
    [0xF0 + cp / 262144; 0x80 + (cp / 4096) mod 64;
     0x80 + (cp / 64) mod 64; 0x80 + cp mod 64].

Definition is_high_surrogate (u : Z) : bool := (0xD800 <=? u) && (u <=? 0xDBFF).
Definition is_low_surrogate (u : Z) : bool := (0xDC00 <=? u) && (u <=? 0xDFFF).

Definition simple_escape (b : Z) : option Z :=
  match b with
  | 34 => Some 34
  | 92 => Some 92
  | 47 => Some 47
  | 98 => Some 8
  | 102 => Some 12
  | 110 => Some 10
  | 114 => Some 13
  | 116 => Some 9
  | _ => None
  end.

(** The characters of a string literal after its opening quote, up to and
    including the closing quote.  An escaped surrogate pair becomes the
    code point it encodes; an escaped lone surrogate is kept as U+FFFD,
    which is how [Buffer.from] would encode it. *)
Fixpoint read_string (acc : Buffer) (inp : Buffer) : option (string * Buffer) :=
  match inp with
  | [] => None
  | 34 :: rest => Some (string_of_bytes (rev acc), rest)
  | 92 :: 117 :: a :: b :: c :: d :: rest =>
      match hex4 a b c d with
      | None => None
      | Some u =>
          if is_high_surrogate u then
            match rest with
            | 92 :: 117 :: a' :: b' :: c' :: d' :: rest' =>
                match hex4 a' b' c' d' with
                | Some u' =>
                    if is_low_surrogate u' then
                      read_string
                        (rev (utf8_encode
                                (0x10000 + (u - 0xD800) * 1024 + (u' - 0xDC00)))
                           ++ acc) rest'
                    else read_string (rev replacement ++ acc) rest
                | None => read_string (rev replacement ++ acc) rest
                end
            | _ => read_string (rev replacement ++ acc) rest
            end
          else if is_low_surrogate u then
            read_string (rev replacement ++ acc) rest
          else read_string (rev (utf8_encode u) ++ acc) rest
      end
  | 92 :: e :: rest =>
      match simple_escape e with
      | Some b => read_string (b :: acc) rest
      | None => None
      end
  | 92 :: [] => None
  | b :: rest => if b <? 0x20 then None else read_string (b :: acc) rest
  end.

(** [fuel] bounds the depth of the calls; [JSON_parse] gives enough. *)
Fixpoint read_value (fuel : nat) (inp : Buffer) : option (json * Buffer) :=
  match fuel with
  | O => None
  | S fuel' =>
      match skip_ws inp with
      | 123 :: rest =>
          match skip_ws rest with
          | 125 :: rest' => Some (JObject [], rest')
          | _ =>
              match read_members fuel' rest with
              | Some (ms, rest') => Some (JObject ms, rest')
              | None => None
              end
          end
      | 91 :: rest =>
          match skip_ws rest with
          | 93 :: rest' => Some (JArray [], rest')
          | _ =>
              match read_elements fuel' rest with
              | Some (vs, rest') => Some (JArray vs, rest')
              | None => None
              end
          end
      | 34 :: rest =>
          match read_string [] rest with
          | Some (s, rest') => Some (JString s, rest')
          | None => None
          end
      | 116 :: 114 :: 117 :: 101 :: rest => Some (JBool true, rest)
      | 102 :: 97 :: 108 :: 115 :: 101 :: rest => Some (JBool false, rest)
      | 110 :: 117 :: 108 :: 108 :: rest => Some (JNull, rest)
      | inp' =>
          match read_number inp' with
          | Some (n, rest) => Some (JNumber n, rest)
          | None => None
          end
      end
  end

(** value ( , value )* ] *)
with read_elements (fuel : nat) (inp : Buffer) : option (list json * Buffer) :=
  match fuel with
  | O => None
  | S fuel' =>
      match read_value fuel' inp with
      | None => None
      | Some (v, rest) =>
          match skip_ws rest with
          | 44 :: rest' =>
              match read_elements fuel' rest' with
              | Some (vs, rest'') => Some (v :: vs, rest'')
              | None => None
              end
          | 93 :: rest' => Some ([v], rest')
          | _ => None
          end
      end
  end

(** string : value ( , string : value )* } *)
with read_members (fuel : nat) (inp : Buffer)
  : option (list (string * json) * Buffer) :=
  match fuel with
  | O => None
  | S fuel' =>
      match skip_ws inp with
      | 34 :: rest =>
          match read_string [] rest with
          | None => None
          | Some (key, rest1) =>
              match skip_ws rest1 with
              | 58 :: rest2 =>
                  match read_value fuel' rest2 with
                  | None => None
                  | Some (v, rest3) =>
                      match skip_ws rest3 with
                      | 44 :: rest4 =>
                          match read_members fuel' rest4 with
                          | Some (ms, rest5) => Some ((key, v) :: ms, rest5)
                          | None => None
                          end
                      | 125 :: rest4 => Some ([(key, v)], rest4)
                      | _ => None
                      end
                  end
              | _ => None
              end
          end
      | _ => None
      end
  end.

(** [JSON.parse(text)]: [None] is a thrown SyntaxError. *)
Definition JSON_parse (text : string) : option json :=
  let inp := bytes_of_string text in
  match read_value (2 * List.length inp + 2) inp with
  | Some (v, rest) =>
      match skip_ws rest with
      | [] => Some v
      | _ :: _ => None
      end
  | None => None
  end.

(** Property read [v.key]; [None] is [undefined].  Of the values
    [JSON.parse] returns only objects have a [data] or a [crc] property,
    and the last of several members with one key is the one kept. *)
Fixpoint lookup_member (key : string) (ms : list (string * json))
  : option json :=
  match ms with
  | [] => None
  | (k, v) :: rest =>
      match lookup_member key rest with
      | Some v' => Some v'
      | None => if String.eqb k key then Some v else None
      end
  end.

Definition get_property (v : json) (key : string) : option json :=
  match v with
  | JObject ms => lookup_member key ms
  | _ => None
  end.

(** ** Numbers read from a packet and [===]

    [JSON.parse] turns a literal into the nearest double, ties to even.
    [reads_as v c] says that the literal of value [v] becomes the integer
    [c], for [0 <= c < 2 ^ 53]. *)

Definition number_value (n : number) : Q :=
  (inject_Z (mantissa n) * Qpower (10 # 1) (exponent n))%Q.

Definition half_ulp_above (c : Z) : Q := Qpower 2 (Z.log2 c - 53).

Definition half_ulp_below (c : Z) : Q :=
  if c =? 2 ^ Z.log2 c then Qpower 2 (Z.log2 c - 54)
  else Qpower 2 (Z.log2 c - 53).

Definition reads_as (v : Q) (c : Z) : bool :=
  if c =? 0 then Qle_bool (Qabs v) (Qpower 2 (-1075))
  else Qle_bool (inject_Z c - half_ulp_below c)%Q v
       && Qle_bool v (inject_Z c + half_ulp_above c)%Q.

(** ** Values, console lines, results *)

Inductive jsval :=
| VUndefined
| VNull
| VString (s : string).

Definition jsval_eqb (a b : jsval) : bool :=
  match a, b with
  | VUndefined, VUndefined => true
  | VNull, VNull => true
  | VString s, VString t => String.eqb s t
  | _, _ => false
  end.

(** [response === "ACK"] and [response === "NAK"] *)
Definition is_ACK (response : jsval) : bool := jsval_eqb response (VString "ACK").
Definition is_NAK (response : jsval) : bool := jsval_eqb response (VString "NAK").

(** The lines the program writes with [console.log], one constructor per
    call site.  [PacketReceivedCorrectly data] is the line that ends with
    [data] converted to a string; it holds the value converted. *)
Inductive logline :=
| SendingPacket (packet : string)
| ACKReceived
| NAKReceivedRetransmitting
| AssumingDelivered
| TimeoutRetransmitting
| PacketDropped
| PacketDelayedBy (ms : Z)
| BitErrorIntroduced (before after : string)
| PacketReceivedCorrectly (data : option json)
| PacketReceivedWithErrors
| PacketReceivedWithErrorsSendingNAK
| PacketReceivedWithErrorsIgnoring.

Inductive error := SyntaxError | TypeError.

Inductive completion (A : Type) :=
| Returns (a : A)
| Throws (e : error).
Arguments Returns {A} a.
Arguments Throws {A} e.

(** ** The receiving side *)

(** [ToString(v)] of a value made by [JSON.parse] returns, or throws a
    TypeError.  An object made by [JSON.parse] has [Object.prototype] as
    its prototype and own properties that are never functions.  With an
    own [toString] the conversion finds no callable [toString], and
    [valueOf] is an own property too, not callable, or
    [Object.prototype.valueOf], which returns the object: no primitive
    is obtained and the conversion throws.  Without one,
    [Object.prototype.toString] answers.  An array is joined by
    [Array.prototype.join]: a [null] element gives the empty string, any
    other element is converted in turn. *)
Fixpoint ToString_returns (v : json) : bool :=
  match v with
  | JArray elements =>
      (fix all (l : list json) : bool :=
         match l with
         | [] => true
         | x :: rest => ToString_returns x && all rest
         end) elements
  | JObject members =>
      match lookup_member "toString" members with
      | Some _ => false
      | None => true
      end
  | JNull | JBool _ | JNumber _ | JString _ => true
  end.

(** [`${data}`], where [None] is [undefined]. *)
Definition template_returns (data : option json) : bool :=
  match data with
  | Some v => ToString_returns v
  | None => true
  end.

Section Receive.

(** [Buffer.from] on what is not a string.  On [undefined], [null], a
    boolean or a number it throws a TypeError.  On an array or an object
    the result depends on the element conversions of the platform; it is
    left open: [None] is a throw. *)
Variable Buffer_from_object : json -> option Buffer.

Definition generateCRC8_of (data : option json) : completion Z :=
  match data with
  | Some (JString s) => Returns (generateCRC8 s)
  | Some (JArray _ as v) | Some (JObject _ as v) =>
      match Buffer_from_object v with
      | Some buf => Returns (crc8_of_buffer buf)
      | None => Throws TypeError
      end
  | Some JNull | Some (JBool _) | Some (JNumber _) | None => Throws TypeError
  end.

(** [computed === crc], where [computed] is a number. *)
Definition strict_equal (computed : Z) (crc : option json) : bool :=
  match crc with
  | Some (JNumber n) => reads_as (number_value n) computed
  | _ => false
  end.

(** [verifyCRC8 = (data, crc) => generateCRC8(data) === crc] *)
Definition verifyCRC8 (data crc : option json) : completion bool :=
  match generateCRC8_of data with
  | Returns computed => Returns (strict_equal computed crc)
  | Throws e => Throws e
  end.

(** The shape the three [receive] functions share: parse, destructure
    [{ data, crc }], verify, and answer by [good] or [bad].  Destructuring
    [null] throws a TypeError.  The line of a good delivery is built from
    [`${data}`] before anything is written or returned: when that
    conversion throws, so does [receive]. *)
Definition receive_with (good bad : option json -> logline * jsval)
  (packet : string) : list logline * completion jsval :=
  match JSON_parse packet with
  | None => ([], Throws SyntaxError)
  | Some JNull => ([], Throws TypeError)
  | Some v =>
      let data := get_property v "data" in
      let crc := get_property v "crc" in
      match verifyCRC8 data crc with
      | Throws e => ([], Throws e)
      | Returns true =>
          if template_returns data
          then ([fst (good data)], Returns (snd (good data)))
          else ([], Throws TypeError)
      | Returns false => ([fst (bad data)], Returns (snd (bad data)))
      end
  end.

End Receive.

(** ** Closures, pending calls, timers *)

Record ChannelConfig := {
  dropProbability : Q;
  delayProbability : Q;
  errorProbability : Q;
  maxDelayMs : Q
}.

(** What a scripted peer does with one [send]: nothing, call back at once,
    or call back from a timer. *)
Inductive outcome :=
| Lose
| AnswerNow (response : jsval)
| AnswerAfter (response : jsval) (delay : Q).

(** The socket a layer is built on: the one [createVirtualSocket] makes,
    or any other object with a [send] method, described by the script of
    what it does with each call. *)
Inductive socket :=
| VirtualSocket (config : ChannelConfig)
| ScriptedSocket.

Inductive callback :=
| External (id : nat)
| ACKNAK_handleResponse (virtualSocket : socket) (packet : string)
    (callback_ : callback)
| NAK_handleResponse (virtualSocket : socket) (packet : string)
    (callback_ : callback)
| ACK_handleResponse (virtualSocket : socket) (timeoutMs : Q)
    (packet : string) (ackReceived : nat) (callback_ : callback).

Inductive task :=
| ACK_timeout (virtualSocket : socket) (timeoutMs : Q) (packet : string)
    (ackReceived : nat) (callback_ : callback)
| Socket_deliver (config : ChannelConfig) (callback_ : callback)
    (data : string)
| Scripted_answer (callback_ : callback) (response : jsval).

Inductive layer :=
| LayerACKNAK (virtualSocket : socket)
| LayerACK (virtualSocket : socket) (timeoutMs : Q)
| LayerNAK (virtualSocket : socket).

Inductive action :=
| Call (cb : callback) (arg : jsval)
| SocketSend (s : socket) (data : string) (cb : callback)
| CallWithMaybeCorrupt (config : ChannelConfig) (cb : callback)
    (data : string)
| SetTimeout (t : task) (delay : Q)
| ACK_sendWithTimeout (virtualSocket : socket) (timeoutMs : Q)
    (packet : string) (callback_ : callback)
| LayerSend (l : layer) (data : string) (cb : callback).

(** What an observer of a run sees: console lines, entries into
    [virtualSocket.send], entries into a callback. *)
Inductive event :=
| Log (l : logline)
| Sent (s : socket) (data : string) (cb : callback)
| Called (cb : callback) (arg : jsval).

Record World := {
  stack : list action;
  timers : list (Z * task);
  clock : Z;
  cells : list bool;
  random : nat -> draw;
  drawn : nat;
  script : nat -> outcome;
  served : nat;
  trace : list event
}.

Definition with_stack (k : list action) (w : World) : World :=
  {| stack := k; timers := timers w; clock := clock w; cells := cells w;
     random := random w; drawn := drawn w; script := script w;
     served := served w; trace := trace w |}.

Definition with_timers (ts : list (Z * task)) (now : Z) (w : World) : World :=
  {| stack := stack w; timers := ts; clock := now; cells := cells w;
     random := random w; drawn := drawn w; script := script w;
     served := served w; trace := trace w |}.

Definition with_cells (cs : list bool) (w : World) : World :=
  {| stack := stack w; timers := timers w; clock := clock w; cells := cs;
     random := random w; drawn := drawn w; script := script w;
     served := served w; trace := trace w |}.

(** The trace is kept newest first. *)
Definition emit (e : event) (w : World) : World :=
  {| stack := stack w; timers := timers w; clock := clock w; cells := cells w;
     random := random w; drawn := drawn w; script := script w;
     served := served w; trace := e :: trace w |}.

Definition console_log (l : logline) (w : World) : World := emit (Log l) w.

(** Calls made by the running function, in program order, ahead of what
    its callers still have to do. *)
Definition push (acts : list action) (w : World) : World :=
  with_stack (acts ++ stack w) w.

(** [Math.random()] *)
Definition Math_random (w : World) : draw * World :=
  (random w (drawn w),
   {| stack := stack w; timers := timers w; clock := clock w; cells := cells w;
      random := random w; drawn := S (drawn w); script := script w;
      served := served w; trace := trace w |}).

Definition next_outcome (w : World) : outcome * World :=
  (script w (served w),
   {| stack := stack w; timers := timers w; clock := clock w; cells := cells w;
      random := random w; drawn := drawn w; script := script w;
      served := S (served w); trace := trace w |}).

(** [setTimeout(f, delay)]: a delay outside [1, 2^31 - 1] counts as 1, a
    fraction is dropped. *)
Definition timer_delay (delay : Q) : Z :=
  if Qle_bool 1 delay && Qle_bool delay 2147483647 then Qfloor delay else 1.

Definition setTimeout (t : task) (delay : Q) (w : World) : World :=
  with_timers (timers w ++ [(clock w + timer_delay delay, t)]) (clock w) w.

(** [let ackReceived = false]: a fresh variable, known by its index. *)
Definition new_cell (w : World) : nat * World :=
  (List.length (cells w), with_cells (cells w ++ [false]) w).

Fixpoint set_true (i : nat) (cs : list bool) : list bool :=
  match cs, i with
  | [], _ => []
  | _ :: rest, O => true :: rest
  | c :: rest, S i' => c :: set_true i' rest
  end.

Definition read_cell (i : nat) (w : World) : bool := nth i (cells w) false.

(** [Math.round(x)] for [x >= 0] *)
Definition Math_round (x : Q) : Z := Qfloor (x + (1 # 2))%Q.

(** ** createReliabilityLayerWithACKNAK *)

Module createReliabilityLayerWithACKNAK.

Definition handleResponse (virtualSocket : socket) (packet : string)
  (callback_ : callback) (response : jsval) (w : World) : World :=
  if is_ACK response then
    push [Call callback_ VUndefined] (console_log ACKReceived w)
  else if is_NAK response then
    push [SocketSend virtualSocket packet
            (ACKNAK_handleResponse virtualSocket packet callback_)]
         (console_log NAKReceivedRetransmitting w)
  else w.

Definition send (virtualSocket : socket) (data : string)
  (callback_ : callback) (w : World) : World :=
  let crc := generateCRC8 data in
  let packet := JSON_stringify data crc in
  push [SocketSend virtualSocket packet
          (ACKNAK_handleResponse virtualSocket packet callback_)]
       (console_log (SendingPacket packet) w).

Definition receive (Buffer_from_object : json -> option Buffer)
  : string -> list logline * completion jsval :=
  receive_with Buffer_from_object
    (fun data => (PacketReceivedCorrectly data, VString "ACK"))
    (fun _ => (PacketReceivedWithErrors, VString "NAK")).

End createReliabilityLayerWithACKNAK.

(** ** createReliabilityLayerWithNAK *)

Module createReliabilityLayerWithNAK.

Definition handleResponse (virtualSocket : socket) (packet : string)
  (callback_ : callback) (response : jsval) (w : World) : World :=
  if is_NAK response then
    push [SocketSend virtualSocket packet
            (NAK_handleResponse virtualSocket packet callback_)]
         (console_log NAKReceivedRetransmitting w)
  else
    push [Call callback_ VUndefined] (console_log AssumingDelivered w).

Definition send (virtualSocket : socket) (data : string)
  (callback_ : callback) (w : World) : World :=
  let crc := generateCRC8 data in
  let packet := JSON_stringify data crc in
  push [SocketSend virtualSocket packet
          (NAK_handleResponse virtualSocket packet callback_)]
       (console_log (SendingPacket packet) w).

Definition receive (Buffer_from_object : json -> option Buffer)
  : string -> list logline * completion jsval :=
  receive_with Buffer_from_object
    (fun data => (PacketReceivedCorrectly data, VNull))
    (fun _ => (PacketReceivedWithErrorsSendingNAK, VString "NAK")).

End createReliabilityLayerWithNAK.

(** ** createReliabilityLayerWithACK *)

Module createReliabilityLayerWithACK.

Definition handleResponse (ackReceived : nat) (callback_ : callback)
  (response : jsval) (w : World) : World :=
  if is_ACK response then
    push [Call callback_ VUndefined]
         (console_log ACKReceived
            (with_cells (set_true ackReceived (cells w)) w))
  else w.

Definition sendWithTimeout (virtualSocket : socket) (timeoutMs : Q)
  (packet : string) (callback_ : callback) (w : World) : World :=
  let '(ackReceived, w1) := new_cell (console_log (SendingPacket packet) w) in
  push [SocketSend virtualSocket packet
          (ACK_handleResponse virtualSocket timeoutMs packet ackReceived
             callback_);
        SetTimeout
          (ACK_timeout virtualSocket timeoutMs packet ackReceived callback_)
          timeoutMs]
       w1.

(** The function handed to [setTimeout]. *)
Definition timeout (virtualSocket : socket) (timeoutMs : Q)
  (packet : string) (ackReceived : nat) (callback_ : callback)
  (w : World) : World :=
  if negb (read_cell ackReceived w) then
    push [ACK_sendWithTimeout virtualSocket timeoutMs packet callback_]
         (console_log TimeoutRetransmitting w)
  else w.

Definition send (virtualSocket : socket) (timeoutMs : Q) (data : string)
  (callback_ : callback) (w : World) : World :=
  let crc := generateCRC8 data in
  let packet := JSON_stringify data crc in
  push [ACK_sendWithTimeout virtualSocket timeoutMs packet callback_] w.

Definition receive (Buffer_from_object : json -> option Buffer)
  : string -> list logline * completion jsval :=
  receive_with Buffer_from_object
    (fun data => (PacketReceivedCorrectly data, VString "ACK"))
    (fun _ => (PacketReceivedWithErrorsIgnoring, VNull)).

End createReliabilityLayerWithACK.

(** ** createVirtualSocket *)

Module createVirtualSocket.

(** [callback(maybeCorruptData(data))]: the argument is evaluated first,
    with one draw, and two more inside [introduceBitError]. *)
Definition maybeCorruptData (config : ChannelConfig) (data : string)
  (w : World) : string * World :=
  let '(r, w1) := Math_random w in
  if Qlt_bool (draw_val r) (errorProbability config) then
    let '(r_byte, w2) := Math_random w1 in
    let '(r_bit, w3) := Math_random w2 in
    let after := introduceBitError data r_byte r_bit in
    (after, console_log (BitErrorIntroduced data after) w3)
  else (data, w1).

Definition call_with_maybe_corrupt (config : ChannelConfig) (cb : callback)
  (data : string) (w : World) : World :=
  let '(data', w1) := maybeCorruptData config data w in
  push [Call cb (VString data')] w1.

Definition send (config : ChannelConfig) (data : string) (cb : callback)
  (w : World) : World :=
  let '(r1, w1) := Math_random w in
  if Qlt_bool (draw_val r1) (dropProbability config) then
    console_log PacketDropped w1
  else
    let '(r2, w2) := Math_random w1 in
    if Qlt_bool (draw_val r2) (delayProbability config) then
      let '(r3, w3) := Math_random w2 in
      let delay := (draw_val r3 * maxDelayMs config)%Q in
      push [SetTimeout (Socket_deliver config cb data) delay]
           (console_log (PacketDelayedBy (Math_round delay)) w3)
    else
      push [CallWithMaybeCorrupt config cb data] w2.

End createVirtualSocket.

(** A scripted peer's [send]. *)
Definition scripted_send (cb : callback) (w : World) : World :=
  let '(o, w1) := next_outcome w in
  match o with
  | Lose => w1
  | AnswerNow response => push [Call cb response] w1
  | AnswerAfter response delay =>
      push [SetTimeout (Scripted_answer cb response) delay] w1
  end.

(** ** The event loop *)

Definition call (cb : callback) (arg : jsval) (w : World) : World :=
  match cb with
  | External _ => w
  | ACKNAK_handleResponse s packet k =>
      createReliabilityLayerWithACKNAK.handleResponse s packet k arg w
  | NAK_handleResponse s packet k =>
      createReliabilityLayerWithNAK.handleResponse s packet k arg w
  | ACK_handleResponse _ _ _ ackReceived k =>
      createReliabilityLayerWithACK.handleResponse ackReceived k arg w
  end.

Definition exec (a : action) (w : World) : World :=
  match a with
  | Call cb arg => call cb arg (emit (Called cb arg) w)
  | SocketSend s data cb =>
      let w1 := emit (Sent s data cb) w in
      match s with
      | VirtualSocket config => createVirtualSocket.send config data cb w1
      | ScriptedSocket => scripted_send cb w1
      end
  | CallWithMaybeCorrupt config cb data =>
      createVirtualSocket.call_with_maybe_corrupt config cb data w
  | SetTimeout t delay => setTimeout t delay w
  | ACK_sendWithTimeout s timeoutMs packet k =>
      createReliabilityLayerWithACK.sendWithTimeout s timeoutMs packet k w
  | LayerSend (LayerACKNAK s) data cb =>
      createReliabilityLayerWithACKNAK.send s data cb w
  | LayerSend (LayerACK s timeoutMs) data cb =>
      createReliabilityLayerWithACK.send s timeoutMs data cb w
  | LayerSend (LayerNAK s) data cb =>
      createReliabilityLayerWithNAK.send s data cb w
  end.

Definition fire (t : task) (w : World) : World :=
  match t with
  | ACK_timeout s timeoutMs packet ackReceived k =>
      createReliabilityLayerWithACK.timeout s timeoutMs packet ackReceived k w
  | Socket_deliver config cb data =>
      createVirtualSocket.call_with_maybe_corrupt config cb data w
  | Scripted_answer cb response => push [Call cb response] w
  end.

(** The pending timer that is due first; of two due together, the one
    set first. *)
Fixpoint next_timer (ts : list (Z * task))
  : option ((Z * task) * list (Z * task)) :=
  match ts with
  | [] => None
  | t :: rest =>
      match next_timer rest with
      | None => Some (t, [])
      | Some (u, rest') =>
          if fst t <=? fst u then Some (t, rest) else Some (u, t :: rest')
      end
  end.

(** One step: the innermost pending call if there is one, else the next
    timer; [None] when nothing is left to run. Running code takes no
    time, and the clock jumps to the timer that fires. *)
Definition step (w : World) : option World :=
  match stack w with
  | a :: k => Some (exec a (with_stack k w))
  | [] =>
      match next_timer (timers w) with
      | Some ((due, t), rest) => Some (fire t (with_timers rest due w))
      | None => None
      end
  end.

Fixpoint run (n : nat) (w : World) : World :=
  match n with
  | O => w
  | S n' => match step w with Some w' => run n' w' | None => w end
  end.

Definition quiescent (w : World) : Prop := step w = None.

(** The world in which a program starts. *)
Definition boot (program : list action) (rnd : nat -> draw)
  (peer : nat -> outcome) : World :=
  {| stack := program; timers := []; clock := 0; cells := [];
     random := rnd; drawn := 0; script := peer; served := 0; trace := [] |}.

(** ** Observations on a trace *)

Definition is_call_of (cb : callback) (e : event) : bool :=
  match e, cb with
  | Called (External i) _, External j => Nat.eqb i j
  | _, _ => false
  end.

(** How often the external callback [id] has been entered. *)
Definition invocations (id : nat) (w : World) : nat :=
  List.length (filter (is_call_of (External id)) (trace w)).

(** The data of the entries into [virtualSocket.send], oldest first. *)
Fixpoint sent_data (tr : list event) : list string :=
  match tr with
  | [] => []
  | Sent _ data _ :: rest => sent_data rest ++ [data]
  | _ :: rest => sent_data rest
  end.

Definition transmissions (w : World) : list string := sent_data (trace w).

(** ** Definitions used by the proofs *)

(** The low byte of the accumulator after the eight rounds of one byte,
    as a function of the low byte before them. *)
Definition crc8_spread (d : Z) : Z := Nat.iter 8 crc_round d mod 256.

Definition crc8_next (s b : Z) : Z := crc8_spread (Z.lxor s (b mod 256)).

(** One round is undone on the low byte: an odd result means that the
    polynomial was added, which happens exactly when the top bit was set. *)
Definition crc8_unround (y : Z) : Z :=
  if Z.odd y then Z.lxor y polynomial / 2 + 128 else y / 2.

Definition bytes256 : list Z := map Z.of_nat (seq 0 256).

(** The checksum as the specification words it, for comparison: an 8-bit
    accumulator, masked after every shift. *)
Definition spec_round (acc : Z) : Z :=
  if Z.testbit acc 7 then Z.lxor (Z.shiftl acc 1) 0x07 mod 256
  else Z.shiftl acc 1 mod 256.

Definition spec_compute (payload : Buffer) : Z :=
  fold_left (fun acc b => Nat.iter 8 spec_round (Z.lxor acc b)) payload 0.

(** Sample packets. [packet_without_crc] is the text
    [{"data":"abc"}]; [packet_without_data] is [{"crc":0}]. *)
Definition packet_without_crc : string :=
  ("{" ++ QuoteJSONString "data" ++ ":" ++ QuoteJSONString "abc" ++ "}")%string.

Definition packet_without_data : string :=
  ("{" ++ QuoteJSONString "crc" ++ ":0}")%string.

Definition no_conversion : json -> option Buffer := fun _ => None.

(** [data] values on which [Buffer.from] throws whatever the platform
    does with arrays and objects. *)
Definition not_bufferable (data : option json) : Prop :=
  match data with
  | None | Some JNull | Some (JBool _) | Some (JNumber _) => True
  | Some (JString _) | Some (JArray _) | Some (JObject _) => False
  end.

Definition not_a_number (crc : option json) : Prop :=
  match crc with
  | Some (JNumber _) => False
  | _ => True
  end.

(** [extends tr' tr]: the trace [tr'] is [tr] with newer events in front. *)
Inductive extends (tr : list event) : list event -> Prop :=
| extends_same : extends tr tr
| extends_more e tr' : extends tr tr' -> extends tr (e :: tr').

(** A socket that never drops, delays or corrupts. *)
Definition clean_channel (maxDelay : Q) : ChannelConfig :=
  {| dropProbability := 0; delayProbability := 0; errorProbability := 0;
     maxDelayMs := maxDelay |}.

(** The callback entries of a trace, oldest first. *)
Fixpoint calls_of (tr : list event) : list (callback * jsval) :=
  match tr with
  | [] => []
  | Called cb arg :: rest => calls_of rest ++ [(cb, arg)]
  | _ :: rest => calls_of rest
  end.

Definition calls (w : World) : list (callback * jsval) := calls_of (trace w).

(** The console lines only a [receive] function writes. *)
Definition is_receive_line (l : logline) : bool :=
  match l with
  | PacketReceivedCorrectly _ | PacketReceivedWithErrors
  | PacketReceivedWithErrorsSendingNAK | PacketReceivedWithErrorsIgnoring => true
  | _ => false
  end.

(** What the virtual socket may hand to a callback for [data]: the data
    itself, or the data after [introduceBitError]. *)
Definition delivered (data : string) (s : string) : Prop :=
  s = data \/ exists r_byte r_bit, s = introduceBitError data r_byte r_bit.

(** A socket that corrupts everything it carries, and draws that make
    [introduceBitError] pick byte 0 and bit 7: the draws are, in order,
    those for the drop, for the delay, for the corruption, for the byte
    index and for the bit index. *)
Definition always_corrupting : ChannelConfig :=
  {| dropProbability := 0; delayProbability := 0; errorProbability := 1;
     maxDelayMs := 0 |}.

Definition top_bit_of_first_byte (n : nat) : draw :=
  match n with
  | 4%nat => {| draw_num := 7; draw_gap := 0 |}
  | _ => {| draw_num := 0; draw_gap := 0 |}
  end.

Definition silent_peer : nat -> outcome := fun _ => Lose.

(** A peer that acknowledges the first transmission after 1500 ms and the
    second after 1 ms. *)
Definition late_first_ACK (n : nat) : outcome :=
  match n with
  | 0%nat => AnswerAfter (VString "ACK") 1500
  | 1%nat => AnswerAfter (VString "ACK") 1
  | _ => Lose
  end.

(** A socket that drops everything. *)
Definition always_dropping (delayP errorP maxDelay : Q) : ChannelConfig :=
  {| dropProbability := 1; delayProbability := delayP;
     errorProbability := errorP; maxDelayMs := maxDelay |}.

(** A peer that finds every packet corrupted and says so, 1 ms later. *)
Definition always_NAK : nat -> outcome :=
  fun _ => AnswerAfter (VString "NAK") 1.

(** The sender keeps transmitting one packet and never completes. *)
Definition retransmits_forever (w0 : World) (packet : string) (id : nat)
  : Prop :=
  (forall n, exists k m,
     (n <= m)%nat /\ transmissions (run k w0) = repeat packet m) /\
  (forall k, invocations id (run k w0) = 0%nat).

(** The sender transmits one packet, once, and then only waits: nothing
    is left to run, nothing more is transmitted and the completion
    callback is never called. *)
Definition sends_once_and_waits (w0 : World) (packet : string) (id : nat)
  : Prop :=
  (exists k, quiescent (run k w0) /\ transmissions (run k w0) = [packet]) /\
  (forall k, (List.length (transmissions (run k w0)) <= 1)%nat) /\
  (forall k, invocations id (run k w0) = 0%nat).

(** A socket that corrupts everything it does not drop. *)
Definition always_failing (dropP delayP maxDelay : Q) : ChannelConfig :=
  {| dropProbability := dropP; delayProbability := delayP;
     errorProbability := 1; maxDelayMs := maxDelay |}.

(** The ACK-only sender between two transmissions: its only pending work
    is the timer of transmission [m], not acknowledged. *)
Definition awaiting_timeout (s : socket) (timeoutMs : Q) (packet : string)
  (id m : nat) (w : World) : Prop :=
  stack w = [] /\
  (exists due,
     timers w = [(due, ACK_timeout s timeoutMs packet m (External id))]) /\
  cells w = repeat false (S m) /\
  transmissions w = repeat packet (S m) /\
  invocations id w = 0%nat.

(** A sender whose only pending work is the peer's "NAK" to
    transmission [m]. *)
Definition awaiting_NAK (h : callback) (packet : string) (id m : nat)
  (w : World) : Prop :=
  stack w = [] /\
  (exists due, timers w = [(due, Scripted_answer h (VString "NAK"))]) /\
  script w = always_NAK /\
  transmissions w = repeat packet (S m) /\
  invocations id w = 0%nat.

(** ** The composed system: layers on the virtual socket

    The invariant of a run in which a layer sends [data] through a socket
    made by [createVirtualSocket]. *)

Definition virtual (s : socket) : Prop :=
  match s with VirtualSocket _ => True | ScriptedSocket => False end.

Definition external (cb : callback) : Prop :=
  match cb with External _ => True | _ => False end.

Definition socket_of (l : layer) : socket :=
  match l with LayerACKNAK s | LayerACK s _ | LayerNAK s => s end.

Section Composed.

Variable data : string.

(** A [handleResponse] closure of a layer on a virtual socket, holding
    the packet of [data]. *)
Definition handler_ok (cb : callback) : Prop :=
  match cb with
  | External _ => False
  | ACKNAK_handleResponse s p k | NAK_handleResponse s p k
  | ACK_handleResponse s _ p _ k =>
      virtual s /\ p = make_packet data /\ external k
  end.

(** A callback entry: an external callback, or a handler entered with
    what the socket delivers for the packet. *)
Definition call_ok (cb : callback) (arg : jsval) : Prop :=
  external cb \/
  (handler_ok cb /\
   exists s, arg = VString s /\ delivered (make_packet data) s).

Definition task_ok (t : task) : Prop :=
  match t with
  | ACK_timeout s _ p _ k => virtual s /\ p = make_packet data /\ external k
  | Socket_deliver _ cb d => d = make_packet data /\ handler_ok cb
  | Scripted_answer _ _ => False
  end.

Definition action_ok (a : action) : Prop :=
  match a with
  | Call cb arg => call_ok cb arg
  | SocketSend s d cb => virtual s /\ d = make_packet data /\ handler_ok cb
  | CallWithMaybeCorrupt _ cb d => d = make_packet data /\ handler_ok cb
  | SetTimeout t _ => task_ok t
  | ACK_sendWithTimeout s _ p k =>
      virtual s /\ p = make_packet data /\ external k
  | LayerSend l d cb => virtual (socket_of l) /\ d = data /\ external cb
  end.

Definition event_ok (e : event) : Prop :=
  match e with
  | Called cb arg => call_ok cb arg
  | Sent s d cb => virtual s /\ d = make_packet data /\ handler_ok cb
  | Log l => is_receive_line l = false
  end.

Definition composed (w : World) : Prop :=
  Forall action_ok (stack w) /\
  Forall (fun dt => task_ok (snd dt)) (timers w) /\
  Forall event_ok (trace w).

End Composed.

(** The three constructors of the source, by the names the specification
    gives their policies. *)
Inductive policy :=
| PositiveNegative
| PositiveOnly (timeoutMs : Q)
| NegativeOnly.

Definition layer_over (p : policy) (s : socket) : layer :=
  match p with
  | PositiveNegative => LayerACKNAK s
  | PositiveOnly timeoutMs => LayerACK s timeoutMs
  | NegativeOnly => LayerNAK s
  end.

(** What an event of the composed system may be: a callback entry is
    that of an external callback or carries a delivered packet, which is
    no signal; a transmission carries the packet; a console line is not
    one of [receive]. *)
Definition envelope_only (data : string) (e : event) : Prop :=
  match e with
  | Called cb arg =>
      external cb \/
      exists s, arg = VString s /\ delivered (make_packet data) s /\
                is_ACK arg = false /\ is_NAK arg = false
  | Sent _ d _ => d = make_packet data
  | Log l => is_receive_line l = false
  end.

(** Buffers of ASCII text. *)
Definition ascii_only (buf : Buffer) : Prop :=
  Forall (fun b => 0 <= b < 128) buf.

(** The packet of "Hello, reliable world!" with the low bit of its first
    payload byte flipped ("H" becomes "I"): the draws 9/43 and 0 pick
    byte 9 of the 43 and bit 0. *)
Definition hello_corrupted : string :=
  introduceBitError (make_packet "Hello, reliable world!")
    {| draw_num := 9; draw_gap := 33 |} {| draw_num := 0; draw_gap := 0 |}.

(** What [read_members] does once it has read a key, a colon and a
    value: the next member after a comma, or the end of the object. *)
Definition after_member (f : nat) (key : string)
  (value : option (json * Buffer)) : option (list (string * json) * Buffer) :=
  match value with
  | None => None
  | Some (v, rest3) =>
      match skip_ws rest3 with
      | 44 :: rest4 =>
          match read_members f rest4 with
          | Some (ms, rest5) => Some ((key, v) :: ms, rest5)
          | None => None
          end
      | 125 :: rest4 => Some ([(key, v)], rest4)
      | _ => None
      end
  end.

(** ** Definitions for further properties *)

(** The NUL character. *)
Definition NUL : ascii := "000".

(** [n] NUL characters in front of a string. *)
Fixpoint NUL_padded (n : nat) (s : string) : string :=
  match n with
  | O => s
  | S n' => String NUL (NUL_padded n' s)
  end.

(** A [crc] field holding the integer [c]. *)
Definition crc_field (c : Z) : option json :=
  Some (JNumber {| mantissa := c; exponent := 0 |}).

(** Handlers that complete on "ACK" only, and the runs made of them. *)
Definition completes_on_ACK_only (cb : callback) : Prop :=
  match cb with
  | ACKNAK_handleResponse _ _ _ | ACK_handleResponse _ _ _ _ _ => True
  | External _ | NAK_handleResponse _ _ _ => False
  end.

Definition quiet_task (t : task) : Prop :=
  match t with
  | ACK_timeout _ _ _ _ _ => True
  | Socket_deliver _ cb _ => completes_on_ACK_only cb
  | Scripted_answer _ _ => False
  end.

Definition quiet_action (a : action) : Prop :=
  match a with
  | Call cb _ | SocketSend _ _ cb | CallWithMaybeCorrupt _ cb _ =>
      completes_on_ACK_only cb
  | SetTimeout t _ => quiet_task t
  | ACK_sendWithTimeout _ _ _ _ => True
  | LayerSend l _ _ =>
      match l with LayerNAK _ => False | _ => True end
  end.

Definition quiet_event (e : event) : Prop :=
  match e with
  | Called cb _ => completes_on_ACK_only cb
  | _ => True
  end.

Definition quiet (w : World) : Prop :=
  Forall quiet_action (stack w) /\
  Forall (fun dt => quiet_task (snd dt)) (timers w) /\
  Forall quiet_event (trace w).

(** A peer that answers "NAK" to the first [k] transmissions and [ok] to
    the next, each 1 ms after the transmission. *)
Definition NAK_times (k : nat) (ok : jsval) : nat -> outcome :=
  fun n => AnswerAfter (if (n <? k)%nat then VString "NAK" else ok) 1.

(** A peer that loses the first [k] transmissions and acknowledges the
    next 1 ms after it. *)
Definition lost_times (k : nat) : nat -> outcome :=
  fun n => if (n <? k)%nat then Lose else AnswerAfter (VString "ACK") 1.

(** A sender whose only pending work is the peer's answer to
    transmission [m]. *)
Definition awaiting_answer (h : callback) (k : nat) (ok : jsval)
  (packet : string) (id m : nat) (w : World) : Prop :=
  stack w = [] /\
  (exists due,
     timers w =
       [(due, Scripted_answer h
                (if (m <? k)%nat then VString "NAK" else ok))]) /\
  script w = NAK_times k ok /\ served w = S m /\
  transmissions w = repeat packet (S m) /\
  invocations id w = 0%nat.

(** The ACK-only sender about to make transmission [m], the earlier ones
    lost and timed out. *)
Definition about_to_send (timeoutMs : Q) (k : nat) (packet : string)
  (id m : nat) (w : World) : Prop :=
  stack w = [ACK_sendWithTimeout ScriptedSocket timeoutMs packet (External id)]
  /\ timers w = [] /\
  cells w = repeat false m /\
  script w = lost_times k /\ served w = m /\
  transmissions w = repeat packet m /\
  invocations id w = 0%nat.

(** Counting: what can still lead to one callback entry, the entries
    into external callbacks, the transmissions. *)
Definition pending_task (t : task) : nat :=
  match t with
  | ACK_timeout _ _ _ _ _ => 0
  | Socket_deliver _ _ _ | Scripted_answer _ _ => 1
  end.

Definition pending_action (a : action) : nat :=
  match a with
  | Call _ _ | CallWithMaybeCorrupt _ _ _ => 1
  | SetTimeout t _ => pending_task t
  | SocketSend _ _ _ | ACK_sendWithTimeout _ _ _ _ | LayerSend _ _ _ => 0
  end.

Fixpoint pending_actions (k : list action) : nat :=
  match k with
  | [] => 0
  | a :: rest => pending_action a + pending_actions rest
  end.

Fixpoint pending_tasks (ts : list (Z * task)) : nat :=
  match ts with
  | [] => 0
  | (_, t) :: rest => pending_task t + pending_tasks rest
  end.

Fixpoint count_completions (tr : list event) : nat :=
  match tr with
  | [] => 0
  | Called (External _) _ :: rest => S (count_completions rest)
  | _ :: rest => count_completions rest
  end.

Fixpoint count_sent (tr : list event) : nat :=
  match tr with
  | [] => 0
  | Sent _ _ _ :: rest => S (count_sent rest)
  | _ :: rest => count_sent rest
  end.

(** Every entry into an external callback, made or still possible, is
    paid for by a transmission. *)
Definition paid_for (w : World) : Prop :=
  (count_completions (trace w) + pending_actions (stack w)
   + pending_tasks (timers w) <= count_sent (trace w))%nat.

(** Sums over the pending calls and over the timers. *)
Fixpoint sum_actions (f : action -> nat) (k : list action) : nat :=
  match k with
  | [] => 0
  | a :: rest => f a + sum_actions f rest
  end.

Fixpoint sum_tasks (f : task -> nat) (ts : list (Z * task)) : nat :=
  match ts with
  | [] => 0
  | (_, t) :: rest => f t + sum_tasks f rest
  end.

(** What will arm or is the timer of the ACK-only sender. *)
Definition arming_task (t : task) : nat :=
  match t with ACK_timeout _ _ _ _ _ => 1 | _ => 0 end.

Definition arming_action (a : action) : nat :=
  match a with
  | LayerSend _ _ _ | ACK_sendWithTimeout _ _ _ _ => 1
  | SetTimeout t _ => arming_task t
  | _ => 0
  end.

(** What will transmit. *)
Definition sender_action (a : action) : nat :=
  match a with
  | LayerSend _ _ _ | ACK_sendWithTimeout _ _ _ _ | SocketSend _ _ _ => 1
  | _ => 0
  end.

Definition unsent_action (a : action) : nat :=
  match a with SocketSend _ _ _ => 1 | _ => 0 end.

(** Steps a pending call or a timer can still cause before the next
    [sendWithTimeout]. *)
Definition weight_task (t : task) : nat :=
  match t with
  | ACK_timeout _ _ _ _ _ | Socket_deliver _ _ _ => 2
  | Scripted_answer _ _ => 0
  end.

Definition weight_action (a : action) : nat :=
  match a with
  | Call _ _ => 1
  | CallWithMaybeCorrupt _ _ _ => 2
  | SetTimeout t _ => S (weight_task t)
  | SocketSend _ _ _ => 5
  | ACK_sendWithTimeout _ _ _ _ => 1
  | LayerSend _ _ _ => 2
  end.

Definition weight (w : World) : nat :=
  (sum_actions weight_action (stack w) + sum_tasks weight_task (timers w))%nat.

Definition of_ACK_layer (a : action) : Prop :=
  match a with
  | LayerSend (LayerACK _ _) _ _ => True
  | LayerSend _ _ _ => False
  | _ => True
  end.

(** The ACK-only sender on the virtual socket, at any moment of a run:
    no acknowledgment has been seen, its timer is armed or about to be,
    and each [sendWithTimeout] has transmitted or is about to. *)
Definition retrying (data : string) (w : World) : Prop :=
  composed data w /\ quiet w /\
  Forall (fun c => c = false) (cells w) /\
  Forall of_ACK_layer (stack w) /\
  (1 <= sum_actions arming_action (stack w)
        + sum_tasks arming_task (timers w))%nat /\
  (sum_actions sender_action (stack w) <= 1)%nat /\
  (count_sent (trace w) + sum_actions unsent_action (stack w)
   = List.length (cells w))%nat.

(** * Properties *)

(** ** The checksum *)

Lemma low_land (a : Z) : Z.land a 0xff = a mod 256.
Proof. change 0xff with (Z.ones 8). now rewrite Z.land_ones. Qed.

Lemma low_lxor (a b : Z) :
  Z.lxor a b mod 256 = Z.lxor (a mod 256) (b mod 256).
Proof.
  rewrite <- !low_land. apply Z.bits_inj'. intros n Hn.
  rewrite !Z.land_spec, !Z.lxor_spec, !Z.land_spec.
  destruct (Z.testbit a n), (Z.testbit b n), (Z.testbit 255 n); reflexivity.
Qed.

Lemma low_toInt32 (z : Z) : toInt32 z mod 256 = z mod 256.
Proof.
  unfold toInt32.
  rewrite (Z.mod_eq (z + 2 ^ 31) (2 ^ 32)) by lia.
  replace (z + 2 ^ 31 - 2 ^ 32 * ((z + 2 ^ 31) / 2 ^ 32) - 2 ^ 31)
    with (z + (- (2 ^ 24 * ((z + 2 ^ 31) / 2 ^ 32))) * 256) by lia.
  apply Z.mod_add. lia.
Qed.

Lemma low_shl1 (c : Z) : shl1 c mod 256 = shl1 (c mod 256) mod 256.
Proof.
  unfold shl1. rewrite !low_toInt32, !Z.shiftl_mul_pow2 by lia.
  change (2 ^ 1) with 2.
  rewrite <- (Z.mul_mod_idemp_l (c mod 256)) by lia.
  rewrite Z.mod_mod by lia. rewrite Z.mul_mod_idemp_l by lia. reflexivity.
Qed.

Lemma low_top_bit (c : Z) : Z.land (c mod 256) 0x80 = Z.land c 0x80.
Proof. rewrite <- low_land, <- Z.land_assoc. reflexivity. Qed.

Lemma low_crc_round (c : Z) :
  crc_round c mod 256 = crc_round (c mod 256) mod 256.
Proof.
  unfold crc_round. rewrite low_top_bit.
  destruct (Z.land c 0x80 =? 0).
  - apply low_shl1.
  - rewrite low_lxor, low_shl1, <- low_lxor. reflexivity.
Qed.

Lemma low_rounds (n : nat) (c : Z) :
  Nat.iter n crc_round c mod 256 = Nat.iter n crc_round (c mod 256) mod 256.
Proof.
  induction n as [|n IH]; simpl.
  - now rewrite Z.mod_mod by lia.
  - rewrite low_crc_round, IH, <- low_crc_round. reflexivity.
Qed.

Lemma in_bytes256 (x : Z) : 0 <= x < 256 -> In x bytes256.
Proof.
  intros H. unfold bytes256. apply in_map_iff. exists (Z.to_nat x).
  split; [lia | apply in_seq; lia].
Qed.

Lemma unround_table :
  forallb (fun x => crc8_unround (crc_round x mod 256) =? x) bytes256 = true.
Proof. vm_compute. reflexivity. Qed.

Lemma unround_round (x : Z) :
  0 <= x < 256 -> crc8_unround (crc_round x mod 256) = x.
Proof.
  intros Hx. pose proof unround_table as T. rewrite forallb_forall in T.
  apply Z.eqb_eq, T, in_bytes256, Hx.
Qed.

Lemma unrounds_rounds (n : nat) (c : Z) :
  Nat.iter n crc8_unround (Nat.iter n crc_round c mod 256) = c mod 256.
Proof.
  induction n as [|n IH]; simpl.
  - reflexivity.
  - rewrite <- Nat.iter_swap, low_crc_round, unround_round.
    + exact IH.
    + apply Z.mod_pos_bound. lia.
Qed.

Lemma spread_injective (x y : Z) :
  0 <= x < 256 -> 0 <= y < 256 -> crc8_spread x = crc8_spread y -> x = y.
Proof.
  unfold crc8_spread. intros Hx Hy E.
  apply (f_equal (Nat.iter 8 crc8_unround)) in E.
  rewrite !unrounds_rounds, !Z.mod_small in E by lia. exact E.
Qed.

Lemma spread_range (d : Z) : 0 <= crc8_spread d < 256.
Proof. unfold crc8_spread. apply Z.mod_pos_bound. lia. Qed.

Lemma low_crc_byte (c b : Z) :
  crc_byte c b mod 256 = crc8_next (c mod 256) b.
Proof.
  unfold crc_byte, crc8_next, crc8_spread.
  now rewrite low_rounds, low_lxor.
Qed.

Lemma low_fold (buf : Buffer) (c : Z) :
  fold_left crc_byte buf c mod 256 = fold_left crc8_next buf (c mod 256).
Proof.
  revert c. induction buf as [|b buf IH]; intros c; simpl.
  - reflexivity.
  - now rewrite IH, low_crc_byte.
Qed.

Lemma crc8_of_buffer_low (buf : Buffer) :
  crc8_of_buffer buf = fold_left crc8_next buf 0.
Proof. unfold crc8_of_buffer. now rewrite low_land, low_fold. Qed.

Lemma lxor_low (a b : Z) :
  0 <= a < 256 -> 0 <= b < 256 -> 0 <= Z.lxor a b < 256.
Proof.
  intros Ha Hb.
  rewrite <- (Z.mod_small a 256), <- (Z.mod_small b 256), <- low_lxor by lia.
  apply Z.mod_pos_bound. lia.
Qed.

Lemma lxor_cancel_r (a b c : Z) : Z.lxor a c = Z.lxor b c -> a = b.
Proof.
  intros E. apply (f_equal (fun z => Z.lxor z c)) in E.
  now rewrite !Z.lxor_assoc, Z.lxor_nilpotent, !Z.lxor_0_r in E.
Qed.

Lemma lxor_cancel_l (a b c : Z) : Z.lxor c a = Z.lxor c b -> a = b.
Proof. rewrite !(Z.lxor_comm c). apply lxor_cancel_r. Qed.

(** Two accumulators with different low bytes never meet again,
    whatever bytes follow. *)
Lemma difference_survives (buf : Buffer) (s s' : Z) :
  0 <= s < 256 -> 0 <= s' < 256 -> s <> s' ->
  fold_left crc8_next buf s <> fold_left crc8_next buf s'.
Proof.
  revert s s'. induction buf as [|b buf IH]; intros s s' Hs Hs' N; simpl.
  - exact N.
  - assert (Hb : 0 <= b mod 256 < 256) by (apply Z.mod_pos_bound; lia).
    apply IH; try apply spread_range.
    unfold crc8_next. intros E.
    apply spread_injective in E; try (apply lxor_low; lia).
    apply N. eapply lxor_cancel_r, E.
Qed.

Lemma shl_1_small (j : nat) :
  (j < 8)%nat -> shl 1 (Z.of_nat j) = 2 ^ Z.of_nat j.
Proof.
  intros Hj. do 8 (destruct j as [|j]; [reflexivity|]). lia.
Qed.

Lemma flip_changes_fold (buf : Buffer) (i j : nat) (s : Z) :
  0 <= s < 256 -> (i < List.length buf)%nat -> (j < 8)%nat ->
  fold_left crc8_next (flip_bit buf i j) s <> fold_left crc8_next buf s.
Proof.
  unfold flip_bit. intros Hs Hi Hj. rewrite shl_1_small by exact Hj.
  revert i s Hs Hi.
  induction buf as [|b buf IH]; intros i s Hs Hi; simpl in Hi.
  - lia.
  - destruct i as [|i]; simpl.
    + assert (Hb : 0 <= b mod 256 < 256) by (apply Z.mod_pos_bound; lia).
      assert (He : 0 < 2 ^ Z.of_nat j mod 256 < 256).
      { do 8 (destruct j as [|j]; [vm_compute; split; reflexivity|]). lia. }
      apply difference_survives; try apply spread_range.
      unfold crc8_next, toUint8. rewrite Z.mod_mod, low_lxor by lia.
      intros E. apply spread_injective in E; try (repeat apply lxor_low; lia).
      apply lxor_cancel_l in E.
      rewrite <- (Z.lxor_0_r (b mod 256)) in E at 2.
      apply lxor_cancel_l in E. lia.
    + apply IH; [apply spread_range | lia].
Qed.

Lemma crc8_flip (buf : Buffer) (i j : nat) :
  (i < List.length buf)%nat -> (j < 8)%nat ->
  crc8_of_buffer (flip_bit buf i j) <> crc8_of_buffer buf.
Proof.
  intros. rewrite !crc8_of_buffer_low. apply flip_changes_fold; auto. lia.
Qed.

Lemma Buffer_from_length (s : string) :
  List.length (Buffer_from s) = String.length s.
Proof.
  unfold Buffer_from, bytes_of_string. rewrite length_map.
  induction s as [|c s IH]; simpl; [reflexivity | now rewrite IH].
Qed.

(** The unmasked accumulator of the source and the masked one of the
    specification give the same checksum. *)
Lemma spec_round_low (x : Z) :
  0 <= x < 256 -> spec_round x = crc_round x mod 256.
Proof.
  intros Hx. pose proof (in_bytes256 x Hx) as I.
  assert (T : forallb (fun x => spec_round x =? crc_round x mod 256) bytes256
              = true) by (vm_compute; reflexivity).
  rewrite forallb_forall in T. now apply Z.eqb_eq, T.
Qed.

Lemma spec_rounds_low (n : nat) (x : Z) :
  0 <= x < 256 ->
  Nat.iter n spec_round x = Nat.iter n crc_round x mod 256.
Proof.
  intros Hx. induction n as [|n IH]; simpl.
  - now rewrite Z.mod_small.
  - rewrite IH, low_crc_round. apply spec_round_low, Z.mod_pos_bound. lia.
Qed.

Lemma generateCRC8_refines_spec (payload : Buffer) :
  Forall (fun b => 0 <= b < 256) payload ->
  crc8_of_buffer payload = spec_compute payload.
Proof.
  rewrite crc8_of_buffer_low. unfold spec_compute.
  assert (G : forall s, 0 <= s < 256 ->
    Forall (fun b => 0 <= b < 256) payload ->
    fold_left crc8_next payload s =
    fold_left (fun acc b => Nat.iter 8 spec_round (Z.lxor acc b)) payload s).
  { induction payload as [|b buf IH]; intros s Hs F; cbn [fold_left];
      [reflexivity|].
    inversion F as [|? ? Hb F']; subst.
    rewrite spec_rounds_low by (apply lxor_low; lia).
    unfold crc8_next at 2, crc8_spread. rewrite (Z.mod_small b) by lia.
    apply IH; [apply Z.mod_pos_bound; lia | exact F']. }
  apply G. lia.
Qed.

(** C3. The checksum of the nine ASCII digits 123456789 is 0xF4, the check
    value of CRC-8 with polynomial 0x07, initial value 0, no reflection
    and no final XOR. *)
Theorem C3_known_vector : generateCRC8 "123456789" = 0xF4.
Proof. vm_compute. reflexivity. Qed.

(** C4. Flipping any single bit of a payload changes its checksum: for
    every payload [P], every bit position [i] of it, and [P'] the payload
    whose bytes are those of [P] with bit [i] flipped, the two checksums
    differ. *)
Theorem C4_single_bit_flip_changes_crc (P P' : string) (i : nat) :
  (i < 8 * String.length P)%nat ->
  Buffer_from P' = flip_bit (Buffer_from P) (i / 8) (i mod 8) ->
  generateCRC8 P' <> generateCRC8 P.
Proof.
  intros Hi E. unfold generateCRC8. rewrite E. apply crc8_flip.
  - rewrite Buffer_from_length. apply Nat.Div0.div_lt_upper_bound. lia.
  - apply Nat.mod_upper_bound. lia.
Qed.

Lemma C4_witness :
  (0 < 8 * String.length "123456789")%nat /\
  Buffer_from "023456789" = flip_bit (Buffer_from "123456789") (0 / 8) (0 mod 8) /\
  generateCRC8 "023456789" <> generateCRC8 "123456789".
Proof.
  assert (H1 : (0 < 8 * String.length "123456789")%nat) by (simpl; lia).
  assert (H2 : Buffer_from "023456789"
               = flip_bit (Buffer_from "123456789") (0 / 8) (0 mod 8))
    by reflexivity.
  split; [exact H1 | split; [exact H2 |]].
  exact (C4_single_bit_flip_changes_crc "123456789" "023456789" 0 H1 H2).
Defined.

(** ** The receiving side *)

Lemma generateCRC8_range (data : string) : 0 <= generateCRC8 data < 256.
Proof.
  unfold generateCRC8, crc8_of_buffer. rewrite low_land.
  apply Z.mod_pos_bound. lia.
Qed.

Section ReceiveProperties.

Variable Buffer_from_object : json -> option Buffer.

Let receiveACKNAK := createReliabilityLayerWithACKNAK.receive Buffer_from_object.
Let receiveACK := createReliabilityLayerWithACK.receive Buffer_from_object.
Let receiveNAK := createReliabilityLayerWithNAK.receive Buffer_from_object.

Lemma verify_needs_value (v : json) (b : bool) :
  verifyCRC8 Buffer_from_object (get_property v "data") (get_property v "crc")
    = Returns b ->
  v <> JNull.
Proof. intros H E. subst v. discriminate H. Qed.

Lemma receive_with_verified good bad (packet : string) (v : json) (b : bool) :
  JSON_parse packet = Some v ->
  verifyCRC8 Buffer_from_object (get_property v "data") (get_property v "crc")
    = Returns b ->
  (b = true -> template_returns (get_property v "data") = true) ->
  receive_with Buffer_from_object good bad packet
    = ([fst ((if b then good else bad) (get_property v "data"))],
       Returns (snd ((if b then good else bad) (get_property v "data")))).
Proof.
  intros P V T. pose proof (verify_needs_value v b V) as N.
  unfold receive_with. rewrite P.
  destruct v; try congruence; rewrite V; destruct b;
    rewrite ?(T eq_refl); reflexivity.
Qed.

Lemma receive_with_throw good bad (packet : string) (v : json) (e : error) :
  JSON_parse packet = Some v ->
  verifyCRC8 Buffer_from_object (get_property v "data") (get_property v "crc")
    = Throws e ->
  receive_with Buffer_from_object good bad packet = ([], Throws e).
Proof.
  intros P V. unfold receive_with. rewrite P.
  destruct v; try rewrite V; try reflexivity.
  cbv in V. injection V as <-. reflexivity.
Qed.

Lemma verify_not_bufferable (data crc : option json) :
  not_bufferable data ->
  verifyCRC8 Buffer_from_object data crc = Throws TypeError.
Proof.
  unfold verifyCRC8. destruct data as [[]|]; simpl; intros H;
    try reflexivity; contradiction.
Qed.

Lemma verify_not_a_number (d : string) (crc : option json) :
  not_a_number crc ->
  verifyCRC8 Buffer_from_object (Some (JString d)) crc = Returns false.
Proof.
  unfold verifyCRC8. simpl. destruct crc as [[]|]; simpl; intros H;
    try reflexivity; contradiction.
Qed.

(** An integer below 256 that a number literal reads as lies within
    2^-46 of the literal's value. *)
Lemma reads_as_near_table :
  forallb (fun c =>
    (c =? 0) ||
    (Qle_bool (half_ulp_below c) (Qpower 2 (-46))
     && Qle_bool (half_ulp_above c) (Qpower 2 (-46)))) bytes256 = true.
Proof. vm_compute. reflexivity. Qed.

Lemma reads_as_near (v : Q) (c : Z) :
  0 <= c < 256 -> reads_as v c = true ->
  (inject_Z c - Qpower 2 (-46) <= v /\ v <= inject_Z c + Qpower 2 (-46))%Q.
Proof.
  intros Hc R. pose proof reads_as_near_table as T.
  rewrite forallb_forall in T. specialize (T c (in_bytes256 c Hc)).
  unfold reads_as in R. destruct (c =? 0) eqn:E0.
  - apply Z.eqb_eq in E0. subst c. apply Qle_bool_iff in R.
    assert (B : (Qpower 2 (-1075) <= Qpower 2 (-46))%Q)
      by (apply Qle_bool_iff; vm_compute; reflexivity).
    apply Qabs_Qle_condition in R. change (inject_Z 0) with 0%Q.
    destruct R as [R1 R2]. split; lra.
  - cbn [orb] in T. apply andb_true_iff in T. destruct T as [T1 T2].
    apply andb_true_iff in R. destruct R as [R1 R2].
    apply Qle_bool_iff in T1, T2, R1, R2. split; lra.
Qed.

(** A number literal reads as at most one integer below 256. *)
Lemma reads_as_unique (v : Q) (c c' : Z) :
  0 <= c < 256 -> 0 <= c' < 256 ->
  reads_as v c = true -> reads_as v c' = (c' =? c).
Proof.
  intros Hc Hc' R. destruct (c' =? c) eqn:E.
  - apply Z.eqb_eq in E. now subst c'.
  - apply Z.eqb_neq in E. destruct (reads_as v c') eqn:R'; [|reflexivity].
    exfalso.
    destruct (reads_as_near v c Hc R) as [L U].
    destruct (reads_as_near v c' Hc' R') as [L' U'].
    assert (S : (Qpower 2 (-46) + Qpower 2 (-46) < 1)%Q)
      by (vm_compute; reflexivity).
    assert (D : c + 1 <= c' \/ c' + 1 <= c) by lia.
    destruct D as [D|D]; rewrite Zle_Qle in D;
      rewrite inject_Z_plus in D; change (inject_Z 1) with 1%Q in D; lra.
Qed.

(** C5. For every well-formed envelope, that is every packet that parses
    to a record whose [data] is text and whose [crc] is a number that
    reads as an integer of 0 to 255, each variant's [receive] answers by
    the table, the checksum outcome being whether that integer is
    [generateCRC8(data)]: on a match ACK+NAK logs the good delivery and
    returns "ACK", ACK-only "ACK", NAK-only [null]; on a mismatch ACK+NAK
    logs the error and returns "NAK", ACK-only [null], NAK-only "NAK". *)
Theorem C5_signal_table (packet : string) (v : json) (data : string)
  (n : number) (crc : Z) :
  JSON_parse packet = Some v ->
  get_property v "data" = Some (JString data) ->
  get_property v "crc" = Some (JNumber n) ->
  0 <= crc < 256 -> reads_as (number_value n) crc = true ->
  receiveACKNAK packet
    = (if generateCRC8 data =? crc
       then ([PacketReceivedCorrectly (Some (JString data))],
             Returns (VString "ACK"))
       else ([PacketReceivedWithErrors], Returns (VString "NAK"))) /\
  receiveACK packet
    = (if generateCRC8 data =? crc
       then ([PacketReceivedCorrectly (Some (JString data))],
             Returns (VString "ACK"))
       else ([PacketReceivedWithErrorsIgnoring], Returns VNull)) /\
  receiveNAK packet
    = (if generateCRC8 data =? crc
       then ([PacketReceivedCorrectly (Some (JString data))], Returns VNull)
       else ([PacketReceivedWithErrorsSendingNAK],
             Returns (VString "NAK"))).
Proof.
  intros P D C Hc R.
  assert (V : verifyCRC8 Buffer_from_object (get_property v "data")
                (get_property v "crc")
              = Returns (generateCRC8 data =? crc)).
  { rewrite D, C. unfold verifyCRC8. cbn [generateCRC8_of strict_equal].
    now rewrite (reads_as_unique _ crc _ Hc (generateCRC8_range data) R). }
  assert (T : (generateCRC8 data =? crc) = true ->
              template_returns (get_property v "data") = true)
    by (intros _; rewrite D; reflexivity).
  unfold receiveACKNAK, receiveACK, receiveNAK.
  unfold createReliabilityLayerWithACKNAK.receive,
    createReliabilityLayerWithACK.receive,
    createReliabilityLayerWithNAK.receive.
  rewrite !(receive_with_verified _ _ packet v _ P V T), D.
  destruct (generateCRC8 data =? crc); auto.
Qed.

(** C8, as amended. [receive] fails and returns no signal when the text
    is not JSON (a SyntaxError), and when the parsed value is [null] or
    its [data] is missing, [null], a boolean or a number (a TypeError).
    Nothing else is validated: when [data] is a string and [crc] is
    missing or is not a number, the comparison is false and [receive]
    returns the variant's mismatch signal. *)
Theorem C8_receive_failures (packet : string) :
  (JSON_parse packet = None ->
     receiveACKNAK packet = ([], Throws SyntaxError) /\
     receiveACK packet = ([], Throws SyntaxError) /\
     receiveNAK packet = ([], Throws SyntaxError)) /\
  (forall v, JSON_parse packet = Some v ->
     not_bufferable (get_property v "data") ->
     receiveACKNAK packet = ([], Throws TypeError) /\
     receiveACK packet = ([], Throws TypeError) /\
     receiveNAK packet = ([], Throws TypeError)) /\
  (forall v d, JSON_parse packet = Some v ->
     get_property v "data" = Some (JString d) ->
     not_a_number (get_property v "crc") ->
     snd (receiveACKNAK packet) = Returns (VString "NAK") /\
     snd (receiveACK packet) = Returns VNull /\
     snd (receiveNAK packet) = Returns (VString "NAK")).
Proof.
  unfold receiveACKNAK, receiveACK, receiveNAK.
  unfold createReliabilityLayerWithACKNAK.receive, createReliabilityLayerWithACK.receive,
    createReliabilityLayerWithNAK.receive.
  split; [|split].
  - intros P. unfold receive_with. rewrite P. auto.
  - intros v P D.
    pose proof (verify_not_bufferable _ (get_property v "crc") D) as V.
    rewrite !(receive_with_throw _ _ packet v TypeError P V). auto.
  - intros v d P D C.
    pose proof (verify_not_a_number d _ C) as V. rewrite <- D in V.
    rewrite !(receive_with_verified _ _ packet v false P V
                ltac:(discriminate)). auto.
Qed.

End ReceiveProperties.

Lemma C5_witness :
  (createReliabilityLayerWithACKNAK.receive no_conversion
     (JSON_stringify "123456789" 244)
     = ([PacketReceivedCorrectly (Some (JString "123456789"))],
        Returns (VString "ACK")) /\
   createReliabilityLayerWithACK.receive no_conversion
     (JSON_stringify "123456789" 244)
     = ([PacketReceivedCorrectly (Some (JString "123456789"))],
        Returns (VString "ACK")) /\
   createReliabilityLayerWithNAK.receive no_conversion
     (JSON_stringify "123456789" 244)
     = ([PacketReceivedCorrectly (Some (JString "123456789"))],
        Returns VNull)) /\
  (createReliabilityLayerWithACKNAK.receive no_conversion
     (JSON_stringify "123456789" 245)
     = ([PacketReceivedWithErrors], Returns (VString "NAK")) /\
   createReliabilityLayerWithACK.receive no_conversion
     (JSON_stringify "123456789" 245)
     = ([PacketReceivedWithErrorsIgnoring], Returns VNull) /\
   createReliabilityLayerWithNAK.receive no_conversion
     (JSON_stringify "123456789" 245)
     = ([PacketReceivedWithErrorsSendingNAK], Returns (VString "NAK"))).
Proof.
  split.
  - apply (C5_signal_table no_conversion (JSON_stringify "123456789" 244)
             (JObject [("data"%string, JString "123456789");
                       ("crc"%string,
                        JNumber {| mantissa := 244; exponent := 0 |})])
             "123456789" {| mantissa := 244; exponent := 0 |} 244).
    + vm_compute. reflexivity.
    + reflexivity.
    + reflexivity.
    + lia.
    + vm_compute. reflexivity.
  - apply (C5_signal_table no_conversion (JSON_stringify "123456789" 245)
             (JObject [("data"%string, JString "123456789");
                       ("crc"%string,
                        JNumber {| mantissa := 245; exponent := 0 |})])
             "123456789" {| mantissa := 245; exponent := 0 |} 245).
    + vm_compute. reflexivity.
    + reflexivity.
    + reflexivity.
    + lia.
    + vm_compute. reflexivity.
Defined.

(** C8. A record without its [crc] field does not make [receive] fail:
    the ACK+NAK receiver answers "NAK". *)
Lemma C8_missing_crc_is_answered :
  JSON_parse packet_without_crc
    = Some (JObject [("data"%string, JString "abc")]) /\
  createReliabilityLayerWithACKNAK.receive no_conversion packet_without_crc
    = ([PacketReceivedWithErrors], Returns (VString "NAK")).
Proof. split; vm_compute; reflexivity. Qed.

Lemma C8_witness :
  (JSON_parse "{" = None /\
   createReliabilityLayerWithACKNAK.receive no_conversion "{"
     = ([], Throws SyntaxError)) /\
  (JSON_parse packet_without_data
     = Some (JObject [("crc"%string,
                       JNumber {| mantissa := 0; exponent := 0 |})]) /\
   createReliabilityLayerWithACKNAK.receive no_conversion packet_without_data
     = ([], Throws TypeError)) /\
  (JSON_parse packet_without_crc
     = Some (JObject [("data"%string, JString "abc")]) /\
   snd (createReliabilityLayerWithACKNAK.receive no_conversion packet_without_crc)
     = Returns (VString "NAK")).
Proof.
  assert (P1 : JSON_parse "{" = None) by (vm_compute; reflexivity).
  assert (P2 : JSON_parse packet_without_data
     = Some (JObject [("crc"%string,
                       JNumber {| mantissa := 0; exponent := 0 |})]))
    by (vm_compute; reflexivity).
  assert (P3 : JSON_parse packet_without_crc
     = Some (JObject [("data"%string, JString "abc")]))
    by (vm_compute; reflexivity).
  split; [|split]; (split; [assumption|]).
  - exact (proj1 (proj1 (C8_receive_failures no_conversion "{") P1)).
  - exact (proj1 (proj1 (proj2 (C8_receive_failures no_conversion
                                  packet_without_data)) _ P2 I)).
  - exact (proj1 (proj2 (proj2 (C8_receive_failures no_conversion
                                  packet_without_crc)) _ "abc"%string
                    P3 eq_refl I)).
Defined.

(** ** A fresh packet at the receiver

    [JSON.parse] undoes [JSON.stringify] on every packet a sender builds,
    so the receiver recovers the data and the checksum it was sent. *)

Lemma string_of_bytes_of_string (s : string) :
  string_of_bytes (bytes_of_string s) = s.
Proof.
  unfold string_of_bytes, bytes_of_string. rewrite map_map.
  induction s as [|c s IH]; [reflexivity|].
  cbn [list_ascii_of_string map string_of_list_ascii].
  unfold ascii_of_byte at 1, byte_of_ascii at 1.
  now rewrite N2Z.id, ascii_N_embedding, IH.
Qed.

Lemma bytes_of_string_app (s t : string) :
  bytes_of_string (s ++ t) = bytes_of_string s ++ bytes_of_string t.
Proof.
  induction s as [|c s IH]; [reflexivity|].
  unfold bytes_of_string in *. cbn [String.append list_ascii_of_string map app].
  now rewrite IH.
Qed.

Lemma read_string_quote_chars (s : string) (acc rest : Buffer) :
  read_string acc (bytes_of_string (quote_chars s) ++ 34 :: rest)
  = Some (string_of_bytes (rev acc ++ bytes_of_string s), rest).
Proof.
  revert acc. induction s as [|c s IH]; intros acc.
  - cbn. now rewrite app_nil_r.
  - cbn [quote_chars]. rewrite bytes_of_string_app, <- app_assoc.
    set (tail := bytes_of_string (quote_chars s) ++ 34 :: rest) in *.
    destruct c as [[|] [|] [|] [|] [|] [|] [|] [|]];
      match goal with
      | |- context [bytes_of_string (quote_char ?c)] =>
          let x := eval vm_compute in (bytes_of_string (quote_char c)) in
          change (bytes_of_string (quote_char c)) with x
      end;
      match goal with
      | |- context [bytes_of_string (String ?c s)] =>
          let b := eval vm_compute in (byte_of_ascii c) in
          change (bytes_of_string (String c s)) with (b :: bytes_of_string s)
      end;
      cbn -[tail string_of_bytes]; rewrite IH; cbn [rev];
      rewrite <- app_assoc; reflexivity.
Qed.

Lemma read_value_crc (fuel : nat) (c : Z) (rest : Buffer) :
  0 <= c < 256 ->
  read_value (S fuel) (bytes_of_string (Number_toString c) ++ 125 :: rest)
  = Some (JNumber {| mantissa := c; exponent := 0 |}, 125 :: rest).
Proof.
  intros Hc. pose proof (in_bytes256 c Hc) as I.
  unfold bytes256 in I. cbn [seq map Z.of_nat Pos.of_succ_nat Pos.succ] in I.
  repeat (destruct I as [<-|I]; [reflexivity|]). destruct I.
Qed.

Lemma reads_as_itself (c : Z) :
  0 <= c < 256 ->
  reads_as (number_value {| mantissa := c; exponent := 0 |}) c = true.
Proof.
  intros Hc. pose proof (in_bytes256 c Hc) as I.
  assert (T : forallb
    (fun c => reads_as (number_value {| mantissa := c; exponent := 0 |}) c)
    bytes256 = true) by (vm_compute; reflexivity).
  rewrite forallb_forall in T. apply T, I.
Qed.

Lemma bytes_of_string_cons (c : ascii) (s : string) :
  bytes_of_string (String c s) = byte_of_ascii c :: bytes_of_string s.
Proof. reflexivity. Qed.

Lemma packet_bytes (data : string) (c : Z) :
  bytes_of_string (JSON_stringify data c)
  = 123 :: 34 :: 100 :: 97 :: 116 :: 97 :: 34 :: 58 :: 34 ::
    (bytes_of_string (quote_chars data) ++
     34 :: 44 :: 34 :: 99 :: 114 :: 99 :: 34 :: 58 ::
     (bytes_of_string (Number_toString c) ++ 125 :: [])).
Proof.
  unfold JSON_stringify.
  change (QuoteJSONString "data")
    with (String dquote ("data" ++ String dquote EmptyString))%string.
  change (QuoteJSONString "crc")
    with (String dquote ("crc" ++ String dquote EmptyString))%string.
  unfold QuoteJSONString.
  repeat (rewrite bytes_of_string_app || rewrite bytes_of_string_cons).
  change (bytes_of_string EmptyString) with (@nil Z).
  cbn [app]. rewrite <- !app_assoc. cbn [app].
  reflexivity.
Qed.

Lemma read_value_object (f : nat) (rest : Buffer) :
  read_value (S f) (123 :: 34 :: rest)
  = match read_members f (34 :: rest) with
    | Some (ms, rest') => Some (JObject ms, rest')
    | None => None
    end.
Proof. reflexivity. Qed.

Lemma read_value_string (f : nat) (rest : Buffer) :
  read_value (S f) (34 :: rest)
  = match read_string [] rest with
    | Some (s, rest') => Some (JString s, rest')
    | None => None
    end.
Proof. reflexivity. Qed.

Lemma read_members_data (f : nat) (rest : Buffer) :
  read_members (S f) (34 :: 100 :: 97 :: 116 :: 97 :: 34 :: 58 :: rest)
  = after_member f "data" (read_value f rest).
Proof. reflexivity. Qed.

Lemma read_members_crc (f : nat) (rest : Buffer) :
  read_members (S f) (34 :: 99 :: 114 :: 99 :: 34 :: 58 :: rest)
  = after_member f "crc" (read_value f rest).
Proof. reflexivity. Qed.

Lemma JSON_parse_make_packet (data : string) :
  JSON_parse (make_packet data)
  = Some (JObject
            [("data"%string, JString data);
             ("crc"%string,
              JNumber {| mantissa := generateCRC8 data; exponent := 0 |})]).
Proof.
  unfold JSON_parse, make_packet.
  rewrite packet_bytes.
  match goal with
  | |- context [read_value ?f _] =>
      assert (F : exists k, f = S (S (S (S k))))
        by (cbn [List.length]; eexists; rewrite Nat.mul_succ_r;
            rewrite !Nat.add_succ_r; reflexivity);
      destruct F as [k ->]
  end.
  rewrite read_value_object, read_members_data, read_value_string.
  rewrite read_string_quote_chars.
  unfold after_member at 1.
  change (skip_ws (44 :: ?x)) with (44 :: x). cbv iota beta.
  rewrite read_members_crc.
  rewrite read_value_crc by apply generateCRC8_range.
  unfold after_member.
  change (skip_ws [125]) with [125]. cbv iota beta.
  change (skip_ws []) with (@nil Z). cbv iota beta.
  cbn [rev app]. now rewrite string_of_bytes_of_string.
Qed.

Section FreshPacket.

Variable Buffer_from_object : json -> option Buffer.

(** A packet as built by [send], unharmed, is a good delivery for each
    of the three receivers. *)
Lemma receive_fresh_packet (data : string) :
  snd (createReliabilityLayerWithACKNAK.receive Buffer_from_object
         (make_packet data)) = Returns (VString "ACK") /\
  snd (createReliabilityLayerWithACK.receive Buffer_from_object
         (make_packet data)) = Returns (VString "ACK") /\
  snd (createReliabilityLayerWithNAK.receive Buffer_from_object
         (make_packet data)) = Returns VNull.
Proof.
  pose proof (JSON_parse_make_packet data) as P.
  assert (V : verifyCRC8 Buffer_from_object
                (get_property
                   (JObject
                      [("data"%string, JString data);
                       ("crc"%string,
                        JNumber {| mantissa := generateCRC8 data;
                                   exponent := 0 |})]) "data")
                (get_property
                   (JObject
                      [("data"%string, JString data);
                       ("crc"%string,
                        JNumber {| mantissa := generateCRC8 data;
                                   exponent := 0 |})]) "crc")
              = Returns true).
  { cbn [get_property lookup_member String.eqb Ascii.eqb Bool.eqb].
    unfold verifyCRC8. cbn [generateCRC8_of strict_equal].
    now rewrite reads_as_itself by apply generateCRC8_range. }
  unfold createReliabilityLayerWithACKNAK.receive,
    createReliabilityLayerWithACK.receive,
    createReliabilityLayerWithNAK.receive.
  rewrite !(receive_with_verified Buffer_from_object _ _ _ _ true P V
              (fun _ => eq_refl)).
  auto.
Qed.

End FreshPacket.

(** ** The event loop *)

Lemma run_quiescent (n : nat) (w : World) : quiescent w -> run n w = w.
Proof. unfold quiescent. intros Q. destruct n; simpl; [|rewrite Q]; reflexivity. Qed.

Lemma run_add (a b : nat) (w : World) : run (a + b) w = run b (run a w).
Proof.
  revert w. induction a as [|a IH]; intros w; simpl.
  - reflexivity.
  - destruct (step w) as [w'|] eqn:E.
    + apply IH.
    + symmetry. apply run_quiescent. exact E.
Qed.

Lemma run_stable (k n : nat) (w : World) :
  quiescent (run k w) -> (k <= n)%nat -> run n w = run k w.
Proof.
  intros Q L. replace n with (k + (n - k))%nat by lia.
  rewrite run_add. apply run_quiescent, Q.
Qed.

Lemma extends_trans (a b c : list event) :
  extends a b -> extends b c -> extends a c.
Proof. intros H1 H2. induction H2; [exact H1 | constructor; assumption]. Qed.

Arguments draw_val : simpl never.
Arguments Qlt_bool : simpl never.
Arguments Math_round : simpl never.
Arguments timer_delay : simpl never.
Arguments introduceBitError : simpl never.
Arguments generateCRC8 : simpl never.
Arguments JSON_stringify : simpl never.
Arguments make_packet : simpl never.
Arguments Qmult : simpl never.
Arguments Z.add : simpl never.

(** Unfolds the functions of the event loop, and nothing of the
    arithmetic or of the strings. *)
Ltac machine :=
  cbv beta iota zeta delta
    [exec fire call
     createReliabilityLayerWithACKNAK.handleResponse createReliabilityLayerWithACKNAK.send
     createReliabilityLayerWithNAK.handleResponse createReliabilityLayerWithNAK.send
     createReliabilityLayerWithACK.handleResponse createReliabilityLayerWithACK.send
     createReliabilityLayerWithACK.sendWithTimeout createReliabilityLayerWithACK.timeout
     createVirtualSocket.send createVirtualSocket.call_with_maybe_corrupt
     createVirtualSocket.maybeCorruptData scripted_send
     push emit console_log with_stack with_timers with_cells Math_random
     next_outcome setTimeout new_cell read_cell boot
     stack timers clock cells random drawn script served trace];
  cbn [app].

Ltac split_cases :=
  repeat match goal with
  | |- context [if ?b then _ else _] => destruct b
  | |- context [match ?o with Lose => _ | _ => _ end] => destruct o
  end.

Ltac crush_extends := machine; split_cases; machine; repeat constructor.

Lemma exec_extends (a : action) (w : World) :
  extends (trace w) (trace (exec a w)).
Proof.
  destruct w.
  destruct a as [cb arg|s data cb|config cb data|t delay|s T p k|l data cb].
  - destruct cb; crush_extends.
  - destruct s; crush_extends.
  - crush_extends.
  - crush_extends.
  - crush_extends.
  - destruct l; crush_extends.
Qed.

Lemma fire_extends (t : task) (w : World) :
  extends (trace w) (trace (fire t w)).
Proof. destruct w, t; crush_extends. Qed.

Lemma step_extends (w w' : World) :
  step w = Some w' -> extends (trace w) (trace w').
Proof.
  unfold step. destruct (stack w) as [|a k].
  - destruct (next_timer (timers w)) as [[[due t] rest]|]; [|discriminate].
    intros E. injection E as <-. apply (fire_extends t (with_timers rest due w)).
  - intros E. injection E as <-. apply (exec_extends a (with_stack k w)).
Qed.

Lemma run_extends (n : nat) (w : World) : extends (trace w) (trace (run n w)).
Proof.
  revert w. induction n as [|n IH]; intros w; simpl.
  - constructor.
  - destruct (step w) as [w'|] eqn:E; [|constructor].
    eapply extends_trans; [apply step_extends, E | apply IH].
Qed.

Lemma extends_count (f : event -> bool) (tr tr' : list event) :
  extends tr tr' ->
  (List.length (filter f tr) <= List.length (filter f tr'))%nat.
Proof.
  induction 1 as [|e tr' _ IH]; simpl; [lia|].
  destruct (f e); simpl; lia.
Qed.

Lemma invocations_mono (id n : nat) (w : World) :
  (invocations id w <= invocations id (run n w))%nat.
Proof. apply extends_count, run_extends. Qed.

(** A callback that has not been entered when nothing is left to run is
    never entered. *)
Lemma never_invoked (id k : nat) (w : World) :
  quiescent (run k w) -> invocations id (run k w) = 0%nat ->
  forall n, invocations id (run n w) = 0%nat.
Proof.
  intros Q Z n. destruct (Nat.le_gt_cases k n) as [L|L].
  - now rewrite (run_stable k n w Q L).
  - replace k with (n + (k - n))%nat in Z by lia. rewrite run_add in Z.
    pose proof (invocations_mono id (k - n) (run n w)). lia.
Qed.

(** ** Draws *)

Lemma draw_val_nonneg (r : draw) : (0 <= draw_val r)%Q.
Proof. unfold draw_val, Qle. simpl. lia. Qed.

Lemma draw_val_below_1 (r : draw) : (draw_val r < 1)%Q.
Proof.
  unfold draw_val, Qlt. simpl.
  rewrite Zpos_P_of_succ_nat. lia.
Qed.

Lemma never_below_0 (r : draw) : Qlt_bool (draw_val r) 0 = false.
Proof.
  unfold Qlt_bool. apply negb_false_iff, Qle_bool_iff, draw_val_nonneg.
Qed.

Lemma always_below_1 (r : draw) : Qlt_bool (draw_val r) 1 = true.
Proof.
  unfold Qlt_bool. apply negb_true_iff.
  destruct (Qle_bool 1 (draw_val r)) eqn:E; [|reflexivity].
  apply Qle_bool_iff in E. pose proof (draw_val_below_1 r) as L.
  exfalso. apply (Qlt_not_le _ _ L E).
Qed.

Lemma random_index_range (r : draw) (n : Z) :
  0 < n -> 0 <= random_index r n < n.
Proof.
  intros Hn. unfold random_index.
  pose proof (draw_val_nonneg r) as H0. pose proof (draw_val_below_1 r) as H1.
  assert (Hq : (0 < inject_Z n)%Q) by (unfold Qlt; simpl; lia).
  split.
  - rewrite <- (Qfloor_Z 0). apply Qfloor_resp_le.
    apply Qmult_le_0_compat; [exact H0 | apply Qlt_le_weak, Hq].
  - assert (L : (draw_val r * inject_Z n < inject_Z n)%Q).
    { rewrite <- (Qmult_1_l (inject_Z n)) at 2.
      apply Qmult_lt_compat_r; assumption. }
    pose proof (Qfloor_le (draw_val r * inject_Z n)) as F.
    pose proof (Qle_lt_trans _ _ _ F L) as G.
    rewrite <- Zlt_Qlt in G. exact G.
Qed.

(** ** A packet is never a signal *)

Lemma packet_is_not_ACK (data : string) (crc : Z) :
  is_ACK (VString (JSON_stringify data crc)) = false.
Proof. reflexivity. Qed.

Lemma packet_is_not_NAK (data : string) (crc : Z) :
  is_NAK (VString (JSON_stringify data crc)) = false.
Proof. reflexivity. Qed.

(** ** Running the event loop by hand *)

Lemma run_unfold (n : nat) (w : World) :
  run (S n) w = match step w with Some w' => run n w' | None => w end.
Proof. reflexivity. Qed.

(** One step of the event loop on a world given by its fields. *)
Ltac step_once :=
  rewrite run_unfold;
  cbv beta iota zeta delta
    [step next_timer exec fire call
     createReliabilityLayerWithACKNAK.handleResponse createReliabilityLayerWithACKNAK.send
     createReliabilityLayerWithNAK.handleResponse createReliabilityLayerWithNAK.send
     createReliabilityLayerWithACK.handleResponse createReliabilityLayerWithACK.send
     createReliabilityLayerWithACK.sendWithTimeout createReliabilityLayerWithACK.timeout
     createVirtualSocket.send createVirtualSocket.call_with_maybe_corrupt
     createVirtualSocket.maybeCorruptData scripted_send
     push emit console_log with_stack with_timers with_cells Math_random
     next_outcome setTimeout new_cell read_cell boot always_dropping always_NAK
     clean_channel
     stack timers clock cells random drawn script served trace];
  cbn [app dropProbability delayProbability errorProbability maxDelayMs].

(** C1. On a socket that never drops, delays or corrupts,
    [createReliabilityLayerWithACKNAK(...).send(data, callback)] hands the
    packet to the socket once, the socket calls [handleResponse] with the
    packet itself, which is neither "ACK" nor "NAK", and the run ends:
    [callback] is never called and no [receive] has run. *)
Theorem C1_clean_channel_never_completes (data : string) (maxDelay : Q)
  (id : nat) (rnd : nat -> draw) (peer : nat -> outcome) :
  let s := VirtualSocket (clean_channel maxDelay) in
  let packet := make_packet data in
  let w0 := boot [LayerSend (LayerACKNAK s) data (External id)] rnd peer in
  quiescent (run 4 w0) /\
  rev (trace (run 4 w0)) =
    [Log (SendingPacket packet);
     Sent s packet (ACKNAK_handleResponse s packet (External id));
     Called (ACKNAK_handleResponse s packet (External id)) (VString packet)] /\
  forall n, invocations id (run n w0) = 0%nat.
Proof.
  intros s packet w0.
  assert (E : run 4 w0 =
    {| stack := []; timers := []; clock := 0; cells := [];
       random := rnd; drawn := 3; script := peer; served := 0;
       trace :=
         [Called (ACKNAK_handleResponse s packet (External id)) (VString packet);
          Sent s packet (ACKNAK_handleResponse s packet (External id));
          Log (SendingPacket packet)] |}).
  { subst w0 s packet. unfold make_packet.
    do 2 step_once. rewrite !never_below_0.
    step_once. rewrite never_below_0.
    step_once. rewrite packet_is_not_ACK, packet_is_not_NAK. reflexivity. }
  assert (Q : quiescent (run 4 w0)) by (rewrite E; reflexivity).
  split; [exact Q | split].
  - rewrite E. reflexivity.
  - apply (never_invoked id 4 w0 Q). rewrite E. reflexivity.
Qed.

Lemma extends_calls (tr tr' : list event) :
  extends tr tr' ->
  (List.length (calls_of tr) <= List.length (calls_of tr'))%nat.
Proof.
  induction 1 as [|e tr' _ IH]; simpl; [lia|].
  destruct e; simpl; try exact IH. rewrite length_app. simpl. lia.
Qed.

(** The callback entries of a finished run bound those of every run. *)
Lemma calls_bounded (k : nat) (w : World) :
  quiescent (run k w) ->
  forall n, (List.length (calls (run n w)) <= List.length (calls (run k w)))%nat.
Proof.
  intros Q n. destruct (Nat.le_gt_cases k n) as [L|L].
  - rewrite (run_stable k n w Q L). lia.
  - replace k with (n + (k - n))%nat by lia. rewrite run_add.
    apply extends_calls, run_extends.
Qed.

(** C6. One call [virtualSocket.send(data, callback)]: when the first
    draw is below [dropProbability] the run ends at once and no callback
    is ever entered; otherwise the run ends within four steps and
    [callback] is the only callback entered, exactly once, with the data
    or the data after [introduceBitError]. *)
Theorem C6_dropped_or_delivered_once (config : ChannelConfig) (data : string)
  (id : nat) (rnd : nat -> draw) (peer : nat -> outcome) :
  let w0 :=
    boot [SocketSend (VirtualSocket config) data (External id)] rnd peer in
  if Qlt_bool (draw_val (rnd 0%nat)) (dropProbability config) then
    quiescent (run 1 w0) /\ forall n, calls (run n w0) = []
  else
    exists payload, delivered data payload /\
      quiescent (run 4 w0) /\
      (forall n, (4 <= n)%nat ->
         calls (run n w0) = [(External id, VString payload)]) /\
      (forall n, (List.length (calls (run n w0)) <= 1)%nat).
Proof.
  intros w0.
  destruct (Qlt_bool (draw_val (rnd 0%nat)) (dropProbability config)) eqn:D.
  - assert (E : run 1 w0 =
      {| stack := []; timers := []; clock := 0; cells := [];
         random := rnd; drawn := 1; script := peer; served := 0;
         trace := [Log PacketDropped;
                   Sent (VirtualSocket config) data (External id)] |}).
    { subst w0. step_once. rewrite D. reflexivity. }
    assert (Q : quiescent (run 1 w0)) by (rewrite E; reflexivity).
    split; [exact Q|]. intros n.
    pose proof (calls_bounded 1 w0 Q n) as B.
    rewrite E in B. cbn in B.
    destruct (calls (run n w0)); [reflexivity | simpl in B; lia].
  - assert (F : exists payload, delivered data payload /\
                quiescent (run 4 w0) /\
                calls (run 4 w0) = [(External id, VString payload)]).
    { subst w0. step_once. rewrite D.
      destruct (Qlt_bool (draw_val (rnd 1%nat)) (delayProbability config)).
      - do 2 step_once.
        destruct (Qlt_bool (draw_val (rnd 3%nat)) (errorProbability config));
          step_once; cbn [run];
          (eexists; split; [|split; reflexivity]);
          [right; eauto | left; reflexivity].
      - step_once.
        destruct (Qlt_bool (draw_val (rnd 2%nat)) (errorProbability config));
          step_once; rewrite run_quiescent by reflexivity;
          (eexists; split; [|split; reflexivity]);
          [right; eauto | left; reflexivity]. }
    destruct F as (payload & Hd & Q & C).
    exists payload. split; [exact Hd | split; [exact Q | split]].
    + intros n L. now rewrite (run_stable 4 n w0 Q L).
    + intros n. pose proof (calls_bounded 4 w0 Q n) as B.
      rewrite C in B. exact B.
Qed.

(** C7. With byte 0 and bit 7 drawn, the socket does not deliver the
    packet with one bit flipped: the flipped byte 0xFB is not UTF-8, and
    [buffer.toString("utf8")] puts the three bytes of U+FFFD in its
    place. The delivered string is two bytes longer than the one sent. *)
Theorem C7_top_bit_flip_delivers_replacement_character :
  let sent := make_packet "A" in
  let w := run 4 (boot [SocketSend (VirtualSocket always_corrupting) sent
                          (External 0)]
                    top_bit_of_first_byte silent_peer) in
  exists received,
    calls w = [(External 0%nat, VString received)] /\
    Buffer_from sent =
      [123; 34; 100; 97; 116; 97; 34; 58; 34; 65; 34; 44; 34; 99; 114; 99;
       34; 58; 49; 57; 50; 125] /\
    flip_bit (Buffer_from sent) 0 7 =
      [251; 34; 100; 97; 116; 97; 34; 58; 34; 65; 34; 44; 34; 99; 114; 99;
       34; 58; 49; 57; 50; 125] /\
    Buffer_from received =
      [239; 191; 189; 34; 100; 97; 116; 97; 34; 58; 34; 65; 34; 44; 34; 99;
       114; 99; 34; 58; 49; 57; 50; 125].
Proof.
  eexists. repeat split; vm_compute; reflexivity.
Qed.

(** C9. There is a delivery schedule on which the ACK-only sender calls
    its completion callback twice for one [send]: the acknowledgment of
    the first transmission arrives after the timeout has fired and the
    packet has been sent again; the second transmission is acknowledged,
    and then the late acknowledgment completes the send once more. *)
Theorem C9_late_ACK_completes_twice (data : string) (rnd : nat -> draw) :
  let packet := make_packet data in
  let h := fun cell =>
    ACK_handleResponse ScriptedSocket 1000 packet cell (External 0) in
  exists (peer : nat -> outcome) (n : nat),
    let w :=
      run n (boot [LayerSend (LayerACK ScriptedSocket 1000) data (External 0)]
               rnd peer) in
    quiescent w /\
    rev (trace w) =
      [Log (SendingPacket packet); Sent ScriptedSocket packet (h 0%nat);
       Log TimeoutRetransmitting;
       Log (SendingPacket packet); Sent ScriptedSocket packet (h 1%nat);
       Called (h 1%nat) (VString "ACK"); Log ACKReceived;
       Called (External 0) VUndefined;
       Called (h 0%nat) (VString "ACK"); Log ACKReceived;
       Called (External 0) VUndefined] /\
    invocations 0 w = 2%nat /\
    transmissions w = [packet; packet].
Proof.
  intros packet h. exists late_first_ACK, 20%nat.
  subst packet h. unfold make_packet. cbv zeta.
  step_once.
  generalize (JSON_stringify data (generateCRC8 data)). intros packet.
  repeat split; vm_compute; reflexivity.
Qed.

(** ** Where a bit error is a single flipped bit

    On ASCII text, and for the bits 0 to 6, [introduceBitError] returns
    the string whose bytes are those given with one bit flipped. *)

Lemma lxor_mod_pow2 (n a b : Z) :
  0 <= n -> Z.lxor a b mod 2 ^ n = Z.lxor (a mod 2 ^ n) (b mod 2 ^ n).
Proof.
  intros Hn. rewrite <- !Z.land_ones by exact Hn. apply Z.bits_inj'.
  intros k Hk. rewrite !Z.land_spec, !Z.lxor_spec, !Z.land_spec.
  destruct (Z.testbit a k), (Z.testbit b k), (Z.testbit (Z.ones n) k);
    reflexivity.
Qed.

Lemma lxor_ascii (a b : Z) :
  0 <= a < 128 -> 0 <= b < 128 -> 0 <= Z.lxor a b < 128.
Proof.
  intros Ha Hb. change 128 with (2 ^ 7).
  rewrite <- (Z.mod_small a (2 ^ 7)), <- (Z.mod_small b (2 ^ 7)),
    <- lxor_mod_pow2 by lia.
  apply Z.mod_pos_bound. lia.
Qed.

Lemma utf8_decode_ascii (buf : Buffer) :
  ascii_only buf -> utf8_decode [] 0 0x80 0xBF buf = buf.
Proof.
  induction 1 as [|b buf Hb _ IH]; [reflexivity|].
  cbn [utf8_decode]. unfold classify.
  replace (b <=? 0x7F) with true by (symmetry; apply Z.leb_le; lia).
  now rewrite IH.
Qed.

Lemma byte_of_ascii_of_byte (b : Z) :
  0 <= b < 256 -> byte_of_ascii (ascii_of_byte b) = b.
Proof.
  intros Hb. unfold byte_of_ascii, ascii_of_byte.
  rewrite N_ascii_embedding by lia. lia.
Qed.

Lemma bytes_of_string_of_bytes (buf : Buffer) :
  Forall (fun b => 0 <= b < 256) buf ->
  bytes_of_string (string_of_bytes buf) = buf.
Proof.
  intros F. unfold bytes_of_string, string_of_bytes.
  rewrite list_ascii_of_string_of_list_ascii, map_map.
  induction F as [|b buf Hb _ IH]; [reflexivity|].
  cbn [map]. now rewrite byte_of_ascii_of_byte, IH.
Qed.

Lemma xor_at_ascii (buf : Buffer) (i : nat) (m : Z) :
  ascii_only buf -> 0 <= m < 128 -> ascii_only (buffer_xor_at buf i m).
Proof.
  intros F Hm. revert i.
  induction F as [|b buf Hb F IH]; intros i; [constructor|].
  destruct i as [|i]; cbn [buffer_xor_at]; constructor.
  - unfold toUint8. pose proof (lxor_ascii b m Hb Hm).
    rewrite Z.mod_small; lia.
  - exact F.
  - exact Hb.
  - apply IH.
Qed.

Lemma introduceBitError_flips_one_bit (data : string) (r_byte r_bit : draw) :
  ascii_only (Buffer_from data) ->
  random_index r_bit 8 < 7 ->
  Buffer_from (introduceBitError data r_byte r_bit) =
  flip_bit (Buffer_from data)
    (Z.to_nat (random_index r_byte (Z.of_nat (List.length (Buffer_from data)))))
    (Z.to_nat (random_index r_bit 8)).
Proof.
  intros A Hj.
  pose proof (random_index_range r_bit 8 ltac:(lia)) as R.
  unfold introduceBitError, flip_bit, Buffer_toString, Buffer_from at 1.
  rewrite Z2Nat.id by lia.
  assert (M : 0 <= shl 1 (random_index r_bit 8) < 128).
  { assert (C : random_index r_bit 8 = 0 \/ random_index r_bit 8 = 1 \/
                random_index r_bit 8 = 2 \/ random_index r_bit 8 = 3 \/
                random_index r_bit 8 = 4 \/ random_index r_bit 8 = 5 \/
                random_index r_bit 8 = 6) by lia.
    repeat (destruct C as [->|C]); try rewrite C; vm_compute;
      split; congruence. }
  pose proof (xor_at_ascii _
                (Z.to_nat (random_index r_byte
                             (Z.of_nat (List.length (Buffer_from data)))))
                _ A M) as X.
  rewrite utf8_decode_ascii by exact X.
  apply bytes_of_string_of_bytes.
  eapply Forall_impl; [|exact X]. cbv beta. intros; lia.
Qed.

(** A corrupted packet at the receiver: the payload bit flipped by
    [hello_corrupted] leaves the text well-formed JSON, the checksum no
    longer matches, and the ACK+NAK receiver answers "NAK". *)
Lemma receive_of_corrupted_packet :
  Buffer_from hello_corrupted
    = flip_bit (Buffer_from (make_packet "Hello, reliable world!")) 9 0 /\
  snd (createReliabilityLayerWithACKNAK.receive no_conversion hello_corrupted)
    = Returns (VString "NAK") /\
  snd (createReliabilityLayerWithNAK.receive no_conversion hello_corrupted)
    = Returns (VString "NAK") /\
  snd (createReliabilityLayerWithACK.receive no_conversion hello_corrupted)
    = Returns VNull.
Proof. repeat split; vm_compute; reflexivity. Qed.

(** ** Unbounded retransmission *)

Lemma retransmits_from_cycle (P : nat -> World -> Prop) (w0 : World)
  (packet : string) (id k0 period : nat) :
  (0 < period)%nat ->
  P 0%nat (run k0 w0) ->
  (forall m w, P m w -> P (S m) (run period w)) ->
  (forall m w, P m w ->
     transmissions w = repeat packet (S m) /\ invocations id w = 0%nat) ->
  retransmits_forever w0 packet id.
Proof.
  intros Hp H0 Hstep Hobs.
  assert (A : forall m, P m (run (k0 + m * period) w0)).
  { induction m as [|m IH].
    - now rewrite Nat.add_0_r.
    - replace (k0 + S m * period)%nat with ((k0 + m * period) + period)%nat
        by lia.
      rewrite run_add. apply Hstep, IH. }
  split.
  - intros n. exists (k0 + n * period)%nat, (S n).
    split; [lia | apply (Hobs n), A].
  - intros k. destruct (Hobs k _ (A k)) as [_ Ik].
    assert (L : (k <= k0 + k * period)%nat) by nia.
    pose proof (invocations_mono id (k0 + k * period - k) (run k w0)) as M.
    rewrite <- run_add in M.
    replace (k + (k0 + k * period - k))%nat with (k0 + k * period)%nat in M
      by lia.
    lia.
Qed.

Lemma awaiting_timeout_again (delayP errorP maxDelay timeoutMs : Q)
  (packet : string) (id m : nat) (w : World) :
  let s := VirtualSocket (always_dropping delayP errorP maxDelay) in
  awaiting_timeout s timeoutMs packet id m w ->
  awaiting_timeout s timeoutMs packet id (S m) (run 4 w).
Proof.
  destruct w as [st ts now cs rnd pos scr srv tr]. cbv zeta.
  unfold awaiting_timeout, transmissions, invocations.
  cbn [stack timers cells trace].
  intros (-> & (due & ->) & -> & Htr & Hinv).
  step_once.
  rewrite nth_repeat. cbn [negb].
  step_once. step_once. rewrite always_below_1. step_once.
  cbn [run]. rewrite !repeat_length.
  repeat split.
  - eexists. reflexivity.
  - symmetry. apply repeat_cons.
  - cbn [sent_data]. rewrite Htr. symmetry. apply repeat_cons.
  - cbn [filter is_call_of]. exact Hinv.
Qed.

Lemma NAK_is_not_ACK : is_ACK (VString "NAK") = false.
Proof. reflexivity. Qed.

Lemma NAK_is_NAK : is_NAK (VString "NAK") = true.
Proof. reflexivity. Qed.

Ltac answer_cycle :=
  let Htr := fresh "Htr" in
  let Hinv := fresh "Hinv" in
  unfold awaiting_NAK, transmissions, invocations;
  cbn [stack timers script trace];
  intros (-> & (? & ->) & -> & Htr & Hinv);
  step_once; step_once;
  rewrite ?NAK_is_not_ACK, NAK_is_NAK;
  step_once; step_once;
  cbn [run];
  repeat split;
  [ eexists; reflexivity
  | cbn [sent_data]; rewrite Htr; symmetry; apply repeat_cons
  | cbn [filter is_call_of]; exact Hinv ].

Lemma awaiting_NAK_again_ACKNAK (packet : string) (id m : nat) (w : World) :
  let h := ACKNAK_handleResponse ScriptedSocket packet (External id) in
  awaiting_NAK h packet id m w -> awaiting_NAK h packet id (S m) (run 4 w).
Proof.
  destruct w as [st ts now cs rnd pos scr srv tr]. cbv zeta. answer_cycle.
Qed.

Lemma awaiting_NAK_again_NAK (packet : string) (id m : nat) (w : World) :
  let h := NAK_handleResponse ScriptedSocket packet (External id) in
  awaiting_NAK h packet id m w -> awaiting_NAK h packet id (S m) (run 4 w).
Proof.
  destruct w as [st ts now cs rnd pos scr srv tr]. cbv zeta. answer_cycle.
Qed.

(** The ACK+NAK sender retransmits on a "NAK" only: on a socket that
    drops everything it transmits once and nothing is left to run. *)
Lemma ACKNAK_stalls_on_drops (data : string) (id : nat) (rnd : nat -> draw)
  (peer : nat -> outcome) (delayP errorP maxDelay : Q) :
  let w :=
    run 2 (boot [LayerSend
                   (LayerACKNAK
                      (VirtualSocket (always_dropping delayP errorP maxDelay)))
                   data (External id)]
             rnd peer) in
  quiescent w /\ transmissions w = [make_packet data] /\
  invocations id w = 0%nat.
Proof.
  cbv zeta. unfold make_packet.
  do 2 step_once. rewrite always_below_1. cbn [run].
  repeat split.
Qed.

(** ** The composed system never carries a signal *)

Lemma packet_first_byte (data : string) :
  exists rest, Buffer_from (make_packet data) = 123 :: rest.
Proof. eexists. unfold make_packet, JSON_stringify. reflexivity. Qed.

Lemma decoded_first_byte (b : Z) (rest : Buffer) :
  b = 122 \/ b = 121 \/ b = 127 \/ b = 115 \/ b = 107 \/ b = 91 \/ b = 59
  \/ b = 251 \/ b = 123 ->
  is_ACK (VString (Buffer_toString (b :: rest))) = false /\
  is_NAK (VString (Buffer_toString (b :: rest))) = false.
Proof.
  intros H. repeat (destruct H as [->|H]); try subst b; split; reflexivity.
Qed.

Lemma flipped_first_byte (j : Z) :
  0 <= j < 8 ->
  let b := toUint8 (Z.lxor 123 (shl 1 j)) in
  b = 122 \/ b = 121 \/ b = 127 \/ b = 115 \/ b = 107 \/ b = 91 \/ b = 59
  \/ b = 251 \/ b = 123.
Proof.
  intros Hj.
  assert (C : j = 0 \/ j = 1 \/ j = 2 \/ j = 3 \/ j = 4 \/ j = 5 \/ j = 6
              \/ j = 7) by lia.
  repeat (destruct C as [->|C]); try subst j; vm_compute; tauto.
Qed.

(** What the socket delivers for a packet is neither "ACK" nor "NAK". *)
Lemma delivered_not_signal (data s : string) :
  delivered (make_packet data) s ->
  is_ACK (VString s) = false /\ is_NAK (VString s) = false.
Proof.
  intros [->|(r_byte & r_bit & ->)].
  - split; [apply packet_is_not_ACK | apply packet_is_not_NAK].
  - unfold introduceBitError.
    destruct (packet_first_byte data) as [rest ->].
    destruct (Z.to_nat (random_index r_byte (Z.of_nat (List.length (123 :: rest)))))
      as [|i]; cbn [buffer_xor_at].
    + apply decoded_first_byte, flipped_first_byte, random_index_range. lia.
    + apply decoded_first_byte. tauto.
Qed.

Lemma next_timer_Forall (P : Z * task -> Prop) (ts : list (Z * task))
  (t : Z * task) (rest : list (Z * task)) :
  next_timer ts = Some (t, rest) -> Forall P ts -> P t /\ Forall P rest.
Proof.
  revert t rest. induction ts as [|x ts IH]; intros t rest E F; simpl in E.
  - discriminate.
  - inversion F as [|? ? Hx Hts]; subst.
    destruct (next_timer ts) as [[u rest']|].
    + destruct (IH u rest' eq_refl Hts) as [Hu Hrest].
      destruct (fst x <=? fst u); injection E as <- <-; auto.
    + injection E as <- <-. auto.
Qed.

Section ComposedRuns.

Variable data : string.

Ltac close_composed :=
  repeat match goal with
  | |- _ /\ _ => split
  | |- Forall _ (_ :: _) => apply Forall_cons
  | |- Forall _ (_ ++ _) => apply Forall_app; split
  | |- Forall _ [] => apply Forall_nil
  end;
  cbn [action_ok task_ok event_ok snd is_receive_line];
  try assumption; try reflexivity; try (repeat split; assumption).

Lemma call_composed (cb : callback) (arg : jsval) (w : World) :
  call_ok data cb arg -> composed data w ->
  composed data (call cb arg (emit (Called cb arg) w)).
Proof.
  destruct w as [st ts now cs rnd pos scr srv tr].
  unfold composed. cbn [stack timers trace].
  intros C (Hs & Ht & He).
  destruct cb as [n|s p k|s p k|s T p c k]; machine.
  - close_composed.
  - destruct C as [[]|(Hh & x & -> & D)].
    destruct (delivered_not_signal data x D) as [-> ->].
    close_composed. right. split; eauto.
  - destruct C as [[]|(Hh & x & -> & D)].
    destruct (delivered_not_signal data x D) as [_ ->].
    close_composed.
    + left. apply Hh.
    + right. split; eauto.
  - destruct C as [[]|(Hh & x & -> & D)].
    destruct (delivered_not_signal data x D) as [-> _].
    close_composed. right. split; eauto.
Qed.

Lemma maybe_corrupt_composed (config : ChannelConfig) (cb : callback)
  (w : World) :
  handler_ok data cb -> composed data w ->
  composed data
    (createVirtualSocket.call_with_maybe_corrupt config cb (make_packet data) w).
Proof.
  destruct w as [st ts now cs rnd pos scr srv tr].
  unfold composed. cbn [stack timers trace].
  intros Hh (Hs & Ht & He). machine.
  destruct (Qlt_bool _ _); machine; close_composed.
  - right. split; [exact Hh|]. eexists. split; [reflexivity|].
    right. eauto.
  - right. split; [exact Hh|]. eexists. split; [reflexivity|].
    left. reflexivity.
Qed.

Lemma exec_composed (a : action) (w : World) :
  action_ok data a -> composed data w -> composed data (exec a w).
Proof.
  destruct a as [cb arg|s d cb|config cb d|t delay|s T p k|l d cb];
    cbn [action_ok exec].
  - apply call_composed.
  - intros (Hv & -> & Hh). destruct s as [config|]; [|destruct Hv].
    destruct w as [st ts now cs rnd pos scr srv tr].
    unfold composed. cbn [stack timers trace]. intros (Hs & Ht & He).
    machine. split_cases; machine; close_composed; exact I.
  - intros (-> & Hh). apply maybe_corrupt_composed, Hh.
  - intros Hk.
    destruct w as [st ts now cs rnd pos scr srv tr].
    unfold composed. cbn [stack timers trace]. intros (Hs & Ht & He).
    machine. close_composed.
  - intros (Hv & -> & Hk).
    destruct w as [st ts now cs rnd pos scr srv tr].
    unfold composed. cbn [stack timers trace]. intros (Hs & Ht & He).
    machine. close_composed.
  - intros (Hv & -> & Hk).
    destruct w as [st ts now cs rnd pos scr srv tr].
    unfold composed. cbn [stack timers trace]. intros (Hs & Ht & He).
    destruct l as [s|s T|s]; cbn [socket_of] in Hv; machine;
      fold (make_packet data); close_composed.
Qed.

Lemma fire_composed (t : task) (w : World) :
  task_ok data t -> composed data w -> composed data (fire t w).
Proof.
  destruct t as [s T p c k|config cb d|cb r]; cbn [task_ok fire].
  - intros (Hv & -> & Hk).
    destruct w as [st ts now cs rnd pos scr srv tr].
    unfold composed. cbn [stack timers trace]. intros (Hs & Ht & He).
    machine. destruct (negb _); close_composed.
  - intros (-> & Hh). apply maybe_corrupt_composed, Hh.
  - intros [].
Qed.

Lemma step_composed (w w' : World) :
  step w = Some w' -> composed data w -> composed data w'.
Proof.
  unfold step. destruct (stack w) as [|a k] eqn:Es.
  - destruct (next_timer (timers w)) as [[[due t] rest]|] eqn:En;
      [|discriminate].
    intros E (Hs & Ht & He). injection E as <-.
    destruct (next_timer_Forall _ _ _ _ En Ht) as [Hd Hrest].
    apply fire_composed; [exact Hd|].
    destruct w; unfold composed; cbn in *. subst. auto.
  - intros E (Hs & Ht & He). injection E as <-. rewrite Es in Hs.
    inversion Hs as [|? ? Ha Hk]; subst.
    apply exec_composed; [exact Ha|].
    destruct w; unfold composed; cbn in *. auto.
Qed.

Lemma run_composed (n : nat) (w : World) :
  composed data w -> composed data (run n w).
Proof.
  revert w. induction n as [|n IH]; intros w C; simpl; [exact C|].
  destruct (step w) as [w'|] eqn:E; [|exact C].
  apply IH. apply (step_composed w w' E C).
Qed.

End ComposedRuns.

(** C2. In a run of any of the three layers on a socket made by
    [createVirtualSocket], whatever its probabilities and draws: every
    entry into a [handleResponse] has for argument the packet string the
    layer built, as sent or after [introduceBitError]; that argument is
    neither "ACK" nor "NAK"; every transmission carries that packet; and
    no console line of a [receive] function appears, none being called. *)
Theorem C2_handler_is_given_the_envelope (p : policy)
  (config : ChannelConfig) (data : string) (id : nat)
  (rnd : nat -> draw) (peer : nat -> outcome) (n : nat) :
  Forall (envelope_only data)
    (trace (run n (boot [LayerSend (layer_over p (VirtualSocket config)) data
                           (External id)]
                     rnd peer))).
Proof.
  assert (C : composed data
    (boot [LayerSend (layer_over p (VirtualSocket config)) data (External id)]
       rnd peer)).
  { unfold composed, boot. cbn [stack timers trace].
    repeat split; try apply Forall_nil.
    apply Forall_cons; [|apply Forall_nil].
    destruct p; cbn; auto. }
  destruct (run_composed data n _ C) as (_ & _ & He).
  eapply Forall_impl; [|exact He].
  intros [l|s d cb|cb arg]; cbn [event_ok envelope_only]; auto.
  - intros (_ & -> & _). reflexivity.
  - intros [E|(_ & s & -> & D)]; [left; exact E|right].
    destruct (delivered_not_signal data s D) as [A N].
    exists s. auto.
Qed.

(** * Further properties *)

(** ** The checksum *)

Lemma Buffer_from_bytes (data : string) :
  Forall (fun b => 0 <= b < 256) (Buffer_from data).
Proof.
  unfold Buffer_from, bytes_of_string.
  induction data as [|c s IH]; cbn [list_ascii_of_string map]; constructor.
  - unfold byte_of_ascii. pose proof (N_ascii_bounded c). lia.
  - exact IH.
Qed.

(** X1. The accumulator of [generateCRC8] is never masked inside the
    loop and grows beyond eight bits, up to the 32-bit wrap-around of
    the shift; this does not show in the result: it is the checksum
    computed with an accumulator masked to eight bits after every shift,
    and it lies in [0, 255]. *)
Theorem X1_unmasked_accumulator_is_harmless (data : string) :
  generateCRC8 data = spec_compute (Buffer_from data) /\
  0 <= generateCRC8 data < 256.
Proof.
  split.
  - apply generateCRC8_refines_spec, Buffer_from_bytes.
  - apply generateCRC8_range.
Qed.

Lemma fold_range (buf : Buffer) (s : Z) :
  0 <= s < 256 -> 0 <= fold_left crc8_next buf s < 256.
Proof.
  revert s. induction buf as [|b buf IH]; intros s Hs; cbn [fold_left].
  - exact Hs.
  - apply IH, spread_range.
Qed.

Lemma crc8_next_self (s : Z) : 0 <= s < 256 -> crc8_next s s = 0.
Proof.
  intros Hs. unfold crc8_next. rewrite Z.mod_small, Z.lxor_nilpotent by lia.
  reflexivity.
Qed.

(** X2. The residue of the checksum is zero: the loop of
    [generateCRC8], run over the bytes of the data followed by the
    checksum byte of the data, ends on 0. *)
Theorem X2_checksum_of_data_and_checksum_is_zero (data : string) :
  crc8_of_buffer (Buffer_from data ++ [generateCRC8 data]) = 0.
Proof.
  unfold generateCRC8. rewrite !crc8_of_buffer_low, fold_left_app.
  cbn [fold_left]. apply crc8_next_self, fold_range. lia.
Qed.

(** X3. Starting from 0, the checksum does not see leading NUL
    characters: any number of them in front of the data leaves
    [generateCRC8] unchanged. *)
Theorem X3_leading_NULs_are_not_detected (n : nat) (data : string) :
  generateCRC8 (NUL_padded n data) = generateCRC8 data.
Proof.
  induction n as [|n IH]; [reflexivity|].
  rewrite <- IH. reflexivity.
Qed.

(** ** The receiving side, end to end *)

Lemma reads_as_table :
  forallb (fun c => forallb (fun c' =>
    Bool.eqb (reads_as (number_value {| mantissa := c'; exponent := 0 |}) c)
             (c =? c'))
    bytes256) bytes256 = true.
Proof. vm_compute. reflexivity. Qed.

Lemma reads_as_integer (c c' : Z) :
  0 <= c < 256 -> 0 <= c' < 256 ->
  reads_as (number_value {| mantissa := c'; exponent := 0 |}) c = (c =? c').
Proof.
  intros Hc Hc'. pose proof reads_as_table as T.
  rewrite forallb_forall in T. specialize (T c (in_bytes256 c Hc)).
  rewrite forallb_forall in T. specialize (T c' (in_bytes256 c' Hc')).
  now apply Bool.eqb_prop in T.
Qed.

Lemma JSON_parse_stringify (data : string) (c : Z) :
  0 <= c < 256 ->
  JSON_parse (JSON_stringify data c)
  = Some (JObject [("data"%string, JString data); ("crc"%string,
            JNumber {| mantissa := c; exponent := 0 |})]).
Proof.
  intros Hc. unfold JSON_parse.
  rewrite packet_bytes.
  match goal with
  | |- context [read_value ?f _] =>
      assert (F : exists k, f = S (S (S (S k))))
        by (cbn [List.length]; eexists; rewrite Nat.mul_succ_r;
            rewrite !Nat.add_succ_r; reflexivity);
      destruct F as [k ->]
  end.
  rewrite read_value_object, read_members_data, read_value_string.
  rewrite read_string_quote_chars.
  unfold after_member at 1.
  change (skip_ws (44 :: ?x)) with (44 :: x). cbv iota beta.
  rewrite read_members_crc.
  rewrite read_value_crc by exact Hc.
  unfold after_member.
  change (skip_ws [125]) with [125]. cbv iota beta.
  change (skip_ws []) with (@nil Z). cbv iota beta.
  cbn [rev app]. now rewrite string_of_bytes_of_string.
Qed.

Section EndToEnd.

Variable Buffer_from_object : json -> option Buffer.

Let receiveACKNAK := createReliabilityLayerWithACKNAK.receive Buffer_from_object.
Let receiveACK := createReliabilityLayerWithACK.receive Buffer_from_object.
Let receiveNAK := createReliabilityLayerWithNAK.receive Buffer_from_object.

Lemma verify_stringified (data : string) (c : Z) :
  0 <= c < 256 ->
  let v := JObject [("data"%string, JString data); ("crc"%string,
             JNumber {| mantissa := c; exponent := 0 |})] in
  verifyCRC8 Buffer_from_object (get_property v "data") (get_property v "crc")
  = Returns (generateCRC8 data =? c).
Proof.
  intros Hc. cbn [get_property lookup_member String.eqb Ascii.eqb Bool.eqb].
  unfold verifyCRC8. cbn [generateCRC8_of strict_equal].
  now rewrite reads_as_integer by (try apply generateCRC8_range; exact Hc).
Qed.

(** X4. Round trip of a packet: what [send] builds from any data,
    [JSON.stringify({ data, crc: generateCRC8(data) })], is parsed back
    by each [receive] to the same data, passes [verifyCRC8], is logged as
    received correctly with that data, and is answered "ACK" by the
    ACK+NAK and ACK-only receivers and [null] by the NAK-only one. *)
Theorem X4_fresh_packet_is_a_good_delivery (data : string) :
  receiveACKNAK (make_packet data)
    = ([PacketReceivedCorrectly (Some (JString data))],
       Returns (VString "ACK")) /\
  receiveACK (make_packet data)
    = ([PacketReceivedCorrectly (Some (JString data))],
       Returns (VString "ACK")) /\
  receiveNAK (make_packet data)
    = ([PacketReceivedCorrectly (Some (JString data))], Returns VNull).
Proof.
  unfold receiveACKNAK, receiveACK, receiveNAK,
    createReliabilityLayerWithACKNAK.receive,
    createReliabilityLayerWithACK.receive,
    createReliabilityLayerWithNAK.receive, receive_with, make_packet.
  pose proof (generateCRC8_range data) as R.
  rewrite (JSON_parse_stringify data _ R).
  rewrite (verify_stringified data _ R), Z.eqb_refl.
  repeat split.
Qed.

(** X5. Among the integers 0 to 255 exactly one passes [verifyCRC8] for
    given data: a packet [{ data, crc: c }] is a good delivery for the
    receivers if [c] is [generateCRC8(data)], and an integrity fault
    ("NAK", [null], "NAK") for every other [c]. *)
Theorem X5_only_the_checksum_verifies (data : string) (c : Z) :
  0 <= c < 256 ->
  verifyCRC8 Buffer_from_object (Some (JString data)) (crc_field c)
    = Returns (c =? generateCRC8 data) /\
  (c <> generateCRC8 data ->
   snd (receiveACKNAK (JSON_stringify data c)) = Returns (VString "NAK") /\
   snd (receiveACK (JSON_stringify data c)) = Returns VNull /\
   snd (receiveNAK (JSON_stringify data c)) = Returns (VString "NAK")).
Proof.
  intros Hc. split.
  - unfold verifyCRC8, crc_field. cbn [generateCRC8_of strict_equal].
    rewrite reads_as_integer by (try apply generateCRC8_range; exact Hc).
    now rewrite Z.eqb_sym.
  - intros N.
    unfold receiveACKNAK, receiveACK, receiveNAK,
      createReliabilityLayerWithACKNAK.receive,
      createReliabilityLayerWithACK.receive,
      createReliabilityLayerWithNAK.receive, receive_with.
    rewrite (JSON_parse_stringify data _ Hc).
    rewrite (verify_stringified data _ Hc).
    replace (generateCRC8 data =? c) with false
      by (symmetry; apply Z.eqb_neq; congruence).
    repeat split.
Qed.

(** X6. A one-bit error in the payload is detected end to end: when
    [data'] is [data] with one bit flipped, the packet that carries
    [data'] under the checksum of [data] is answered "NAK" by the ACK+NAK
    and NAK-only receivers and [null] by the ACK-only one. *)
Theorem X6_flipped_payload_bit_is_refused (data data' : string) (i : nat) :
  (i < 8 * String.length data)%nat ->
  Buffer_from data' = flip_bit (Buffer_from data) (i / 8) (i mod 8) ->
  let packet := JSON_stringify data' (generateCRC8 data) in
  receiveACKNAK packet
    = ([PacketReceivedWithErrors], Returns (VString "NAK")) /\
  receiveACK packet
    = ([PacketReceivedWithErrorsIgnoring], Returns VNull) /\
  receiveNAK packet
    = ([PacketReceivedWithErrorsSendingNAK], Returns (VString "NAK")).
Proof.
  intros Hi E packet.
  assert (N : generateCRC8 data' <> generateCRC8 data).
  { unfold generateCRC8. rewrite E. apply crc8_flip.
    - rewrite Buffer_from_length. apply Nat.Div0.div_lt_upper_bound. lia.
    - apply Nat.mod_upper_bound. lia. }
  pose proof (generateCRC8_range data) as R.
  unfold receiveACKNAK, receiveACK, receiveNAK,
    createReliabilityLayerWithACKNAK.receive,
    createReliabilityLayerWithACK.receive,
    createReliabilityLayerWithNAK.receive, receive_with, packet.
  rewrite (JSON_parse_stringify data' _ R).
  rewrite (verify_stringified data' _ R).
  replace (generateCRC8 data' =? generateCRC8 data) with false
    by (symmetry; apply Z.eqb_neq; exact N).
  repeat split.
Qed.

End EndToEnd.

Lemma X5_witness :
  0 <= 0 < 256 /\
  verifyCRC8 no_conversion (Some (JString "A")) (crc_field 0)
    = Returns (0 =? generateCRC8 "A") /\
  snd (createReliabilityLayerWithACKNAK.receive no_conversion
         (JSON_stringify "A" 0)) = Returns (VString "NAK").
Proof.
  assert (H : 0 <= 0 < 256) by lia.
  assert (N : 0 <> generateCRC8 "A") by (vm_compute; discriminate).
  split; [exact H | split].
  - exact (proj1 (X5_only_the_checksum_verifies no_conversion "A" 0 H)).
  - exact (proj1 (proj2 (X5_only_the_checksum_verifies no_conversion "A" 0 H)
                    N)).
Defined.

Lemma X6_witness :
  (0 < 8 * String.length "123456789")%nat /\
  Buffer_from "023456789"
    = flip_bit (Buffer_from "123456789") (0 / 8) (0 mod 8) /\
  createReliabilityLayerWithACKNAK.receive no_conversion
    (JSON_stringify "023456789" (generateCRC8 "123456789"))
    = ([PacketReceivedWithErrors], Returns (VString "NAK")).
Proof.
  assert (H1 : (0 < 8 * String.length "123456789")%nat) by (simpl; lia).
  assert (H2 : Buffer_from "023456789"
               = flip_bit (Buffer_from "123456789") (0 / 8) (0 mod 8))
    by reflexivity.
  split; [exact H1 | split; [exact H2 |]].
  exact (proj1 (X6_flipped_payload_bit_is_refused no_conversion
                  "123456789" "023456789" 0 H1 H2)).
Defined.

(** ** Bit errors *)

Lemma decode_ascii_prefix (pre rest : Buffer) (lo hi : Z) :
  ascii_only pre ->
  utf8_decode [] 0 lo hi (pre ++ rest)
  = pre ++ utf8_decode [] 0 0x80 0xBF rest.
Proof.
  intros A. revert lo hi.
  induction A as [|b pre Hb _ IH]; intros lo hi.
  - destruct rest; reflexivity.
  - cbn [app utf8_decode]. unfold classify.
    replace (b <=? 0x7F) with true by (symmetry; apply Z.leb_le; lia).
    now rewrite IH.
Qed.

Lemma lead_range (h : Z) (n : nat) (lo hi : Z) :
  classify h = LeadOf n lo hi -> (exists n', n = S n') /\ 0x80 <= lo.
Proof.
  unfold classify.
  destruct (h <=? 0x7F); [discriminate|].
  destruct ((0xC2 <=? h) && (h <=? 0xDF)).
  { intros E. injection E as <- <- <-. split; [eauto | lia]. }
  destruct ((0xE0 <=? h) && (h <=? 0xEF)).
  { intros E. injection E as <- <- <-. split; [eauto|].
    destruct (h =? 0xE0); lia. }
  destruct ((0xF0 <=? h) && (h <=? 0xF4)); [|discriminate].
  intros E. injection E as <- <- <-. split; [eauto|].
  destruct (h =? 0xF0); lia.
Qed.

(** A byte above 0x7F between ASCII bytes is never part of a well-formed
    sequence: it is decoded to U+FFFD. *)
Lemma decode_high_byte_in_ascii (h : Z) (post : Buffer) :
  128 <= h -> ascii_only post ->
  utf8_decode [] 0 0x80 0xBF (h :: post) = replacement ++ post.
Proof.
  intros Hh A. cbn [utf8_decode].
  destruct (classify h) as [|n lo hi|] eqn:C.
  - unfold classify in C.
    replace (h <=? 0x7F) with false in C by (symmetry; apply Z.leb_gt; lia).
    destruct ((0xC2 <=? h) && (h <=? 0xDF)); [discriminate|].
    destruct ((0xE0 <=? h) && (h <=? 0xEF)); [discriminate|].
    destruct ((0xF0 <=? h) && (h <=? 0xF4)); discriminate.
  - destruct (lead_range h n lo hi C) as [[n' ->] Hlo].
    destruct A as [|p post Hp A]; [reflexivity|].
    cbn [utf8_decode].
    replace (lo <=? p) with false by (symmetry; apply Z.leb_gt; lia).
    cbn [andb]. unfold classify.
    replace (p <=? 0x7F) with true by (symmetry; apply Z.leb_le; lia).
    now rewrite utf8_decode_ascii.
  - now rewrite utf8_decode_ascii.
Qed.

Lemma buffer_xor_at_split (buf : Buffer) (i : nat) (m : Z) :
  (i < List.length buf)%nat ->
  buffer_xor_at buf i m
  = firstn i buf ++ toUint8 (Z.lxor (nth i buf 0) m) :: skipn (S i) buf.
Proof.
  revert i. induction buf as [|b buf IH]; intros i Hi; cbn [List.length] in Hi.
  - lia.
  - destruct i as [|i]; cbn [buffer_xor_at firstn skipn nth app].
    + reflexivity.
    + now rewrite IH by lia.
Qed.

Lemma top_bit_table :
  forallb (fun b =>
    implb (b <? 128)
      ((128 <=? toUint8 (Z.lxor b (shl 1 7)))
       && (toUint8 (Z.lxor b (shl 1 7)) <? 256)))
    bytes256 = true.
Proof. vm_compute. reflexivity. Qed.

Lemma top_bit_set (b : Z) :
  0 <= b < 128 -> 128 <= toUint8 (Z.lxor b (shl 1 7)) < 256.
Proof.
  intros Hb. pose proof top_bit_table as T. rewrite forallb_forall in T.
  specialize (T b (in_bytes256 b ltac:(lia))).
  replace (b <? 128) with true in T by (symmetry; apply Z.ltb_lt; lia).
  cbn [implb] in T. apply andb_true_iff in T. destruct T as [T1 T2].
  apply Z.leb_le in T1. apply Z.ltb_lt in T2. lia.
Qed.

Lemma ascii_firstn (buf : Buffer) (i : nat) :
  ascii_only buf -> ascii_only (firstn i buf).
Proof.
  intros A. revert i.
  induction A as [|b buf Hb A IH]; intros [|i]; cbn [firstn];
    try constructor; auto; apply IH.
Qed.

Lemma ascii_skipn (buf : Buffer) (i : nat) :
  ascii_only buf -> ascii_only (skipn i buf).
Proof.
  intros A. revert i. induction A as [|b buf Hb A IH]; intros [|i];
    cbn [skipn]; try constructor; auto; try apply IH.
Qed.

Lemma ascii_nth (buf : Buffer) (i : nat) :
  ascii_only buf -> 0 <= nth i buf 0 < 128.
Proof.
  intros A. revert i. induction A as [|b buf Hb A IH]; intros [|i];
    cbn [nth]; try lia; try apply IH.
Qed.

Lemma ascii_bytes (buf : Buffer) :
  ascii_only buf -> Forall (fun b => 0 <= b < 256) buf.
Proof. intros A. eapply Forall_impl; [|exact A]. cbv beta. intros; lia. Qed.

Lemma byte_index_range (data : string) (r_byte : draw) :
  data <> EmptyString ->
  (Z.to_nat (random_index r_byte (Z.of_nat (List.length (Buffer_from data))))
   < String.length data)%nat.
Proof.
  intros N. rewrite Buffer_from_length.
  destruct data as [|c s]; [congruence|]. cbn [String.length].
  pose proof (random_index_range r_byte (Z.of_nat (S (String.length s)))
                ltac:(lia)).
  lia.
Qed.

(** The string after a bit error at bit 7, on ASCII text. *)
Lemma top_bit_error (data : string) (r_byte r_bit : draw) :
  ascii_only (Buffer_from data) -> data <> EmptyString ->
  random_index r_bit 8 = 7 ->
  let i := Z.to_nat
             (random_index r_byte (Z.of_nat (List.length (Buffer_from data)))) in
  Buffer_from (introduceBitError data r_byte r_bit)
  = firstn i (Buffer_from data) ++ replacement
    ++ skipn (S i) (Buffer_from data).
Proof.
  intros A N J i.
  pose proof (byte_index_range data r_byte N) as Hi. fold i in Hi.
  rewrite <- Buffer_from_length in Hi.
  unfold introduceBitError, Buffer_toString, Buffer_from at 1.
  fold i. rewrite J.
  rewrite buffer_xor_at_split by exact Hi.
  rewrite decode_ascii_prefix by (apply ascii_firstn, A).
  rewrite decode_high_byte_in_ascii;
    [| apply top_bit_set, ascii_nth, A | apply ascii_skipn, A].
  apply bytes_of_string_of_bytes.
  apply Forall_app. split; [apply ascii_bytes, ascii_firstn, A|].
  apply Forall_app. split; [|apply ascii_bytes, ascii_skipn, A].
  repeat constructor; lia.
Qed.

Lemma buffer_xor_at_changes (buf : Buffer) (i : nat) (m : Z) :
  (i < List.length buf)%nat -> Forall (fun b => 0 <= b < 256) buf ->
  0 < m < 256 -> buffer_xor_at buf i m <> buf.
Proof.
  intros Hi F Hm. revert i Hi.
  induction F as [|b buf Hb F IH]; intros i Hi; cbn [List.length] in Hi.
  - lia.
  - destruct i as [|i]; cbn [buffer_xor_at]; intros E; injection E as E.
    + unfold toUint8 in E.
      rewrite Z.mod_small in E by (apply lxor_low; lia).
      rewrite <- (Z.lxor_0_r b) in E at 2. apply lxor_cancel_l in E. lia.
    + apply (IH i); [lia | exact E].
Qed.

Lemma low_bit_mask (j : Z) : 0 <= j < 7 -> 0 < shl 1 j < 128.
Proof.
  intros Hj.
  assert (C : j = 0 \/ j = 1 \/ j = 2 \/ j = 3 \/ j = 4 \/ j = 5 \/ j = 6)
    by lia.
  repeat (destruct C as [->|C]); try subst j; vm_compute; split; congruence.
Qed.

(** X7. On ASCII text, a bit error at one of the bits 0 to 6 is what the
    source's comment says: the returned string has the bytes of the
    data with exactly one bit of one byte flipped, at a byte position
    inside the data. *)
Theorem X7_low_bit_error_flips_one_bit (data : string) (r_byte r_bit : draw) :
  ascii_only (Buffer_from data) -> data <> EmptyString ->
  random_index r_bit 8 < 7 ->
  exists i j,
    (i < String.length data)%nat /\ (j < 7)%nat /\
    Buffer_from (introduceBitError data r_byte r_bit)
      = flip_bit (Buffer_from data) i j /\
    introduceBitError data r_byte r_bit <> data.
Proof.
  intros A N J.
  pose proof (random_index_range r_bit 8 ltac:(lia)) as R.
  exists (Z.to_nat (random_index r_byte
                      (Z.of_nat (List.length (Buffer_from data))))),
         (Z.to_nat (random_index r_bit 8)).
  pose proof (introduceBitError_flips_one_bit data r_byte r_bit A J) as E.
  split; [apply byte_index_range, N | split; [lia | split; [exact E|]]].
  intros C. rewrite C in E. symmetry in E. revert E.
  unfold flip_bit. rewrite Z2Nat.id by lia.
  apply buffer_xor_at_changes.
  - pose proof (byte_index_range data r_byte N) as Hi.
    rewrite <- Buffer_from_length in Hi. exact Hi.
  - apply Buffer_from_bytes.
  - pose proof (low_bit_mask (random_index r_bit 8) ltac:(lia)). lia.
Qed.

(** X8. On ASCII text, a bit error at bit 7 is never a flipped bit: the
    byte it hits leaves the ASCII range, [buffer.toString("utf8")]
    replaces it by the three bytes of U+FFFD, and the returned string is
    the data with that character in place of the byte, two bytes
    longer. *)
Theorem X8_top_bit_error_puts_replacement_character (data : string)
  (r_byte r_bit : draw) :
  ascii_only (Buffer_from data) -> data <> EmptyString ->
  random_index r_bit 8 = 7 ->
  exists i,
    (i < String.length data)%nat /\
    Buffer_from (introduceBitError data r_byte r_bit)
      = firstn i (Buffer_from data) ++ [0xEF; 0xBF; 0xBD]
        ++ skipn (S i) (Buffer_from data) /\
    String.length (introduceBitError data r_byte r_bit)
      = (String.length data + 2)%nat.
Proof.
  intros A N J.
  pose proof (byte_index_range data r_byte N) as Hi.
  pose proof (top_bit_error data r_byte r_bit A N J) as E. cbv zeta in E.
  revert Hi E.
  generalize (Z.to_nat (random_index r_byte
                          (Z.of_nat (List.length (Buffer_from data))))).
  intros i Hi E.
  exists i. split; [exact Hi | split; [exact E|]].
  rewrite <- (Buffer_from_length (introduceBitError data r_byte r_bit)), E.
  rewrite !length_app, length_firstn, length_skipn, Buffer_from_length.
  cbn [List.length replacement]. lia.
Qed.

(** X9. A bit error leaves the string as it was exactly when there is
    nothing to corrupt: on the empty string [introduceBitError] returns
    the empty string, whatever is drawn, and on every other ASCII text it
    returns a different string. *)
Theorem X9_bit_error_changes_all_but_the_empty_string (data : string)
  (r_byte r_bit : draw) :
  ascii_only (Buffer_from data) ->
  (introduceBitError data r_byte r_bit = data <-> data = EmptyString).
Proof.
  intros A. split.
  - intros C. destruct data as [|c s] eqn:D; [reflexivity|]. exfalso.
    assert (N : data <> EmptyString) by (subst data; discriminate).
    rewrite <- D in *.
    pose proof (random_index_range r_bit 8 ltac:(lia)) as R.
    destruct (Z.eq_dec (random_index r_bit 8) 7) as [J|J].
    + pose proof (top_bit_error data r_byte r_bit A N J) as E.
      pose proof (byte_index_range data r_byte N) as Hi.
      cbv zeta in E. rewrite C in E. revert Hi E.
      generalize (Z.to_nat (random_index r_byte
                              (Z.of_nat (List.length (Buffer_from data))))).
      intros i Hi E.
      apply (f_equal (@List.length Z)) in E.
      rewrite !length_app, length_firstn, length_skipn in E.
      rewrite Buffer_from_length in E. cbn [List.length replacement] in E.
      lia.
    + pose proof (introduceBitError_flips_one_bit data r_byte r_bit A
                    ltac:(lia)) as E.
      rewrite C in E. symmetry in E. revert E.
      unfold flip_bit. rewrite Z2Nat.id by lia.
      apply buffer_xor_at_changes.
      * pose proof (byte_index_range data r_byte N) as Hi.
        rewrite <- Buffer_from_length in Hi. exact Hi.
      * apply Buffer_from_bytes.
      * pose proof (low_bit_mask (random_index r_bit 8) ltac:(lia)). lia.
  - intros ->. reflexivity.
Qed.

Lemma X7_witness :
  exists i j,
    (i < String.length "Hi")%nat /\ (j < 7)%nat /\
    Buffer_from (introduceBitError "Hi" {| draw_num := 1; draw_gap := 0 |}
                   {| draw_num := 1; draw_gap := 2 |})
      = flip_bit (Buffer_from "Hi") i j /\
    introduceBitError "Hi" {| draw_num := 1; draw_gap := 0 |}
      {| draw_num := 1; draw_gap := 2 |} <> "Hi"%string.
Proof.
  apply (X7_low_bit_error_flips_one_bit "Hi"
           {| draw_num := 1; draw_gap := 0 |}
           {| draw_num := 1; draw_gap := 2 |}).
  - repeat constructor; vm_compute; congruence.
  - discriminate.
  - vm_compute. reflexivity.
Defined.

Lemma X8_witness :
  exists i,
    (i < String.length "Hi")%nat /\
    Buffer_from (introduceBitError "Hi" {| draw_num := 1; draw_gap := 0 |}
                   {| draw_num := 7; draw_gap := 0 |})
      = firstn i (Buffer_from "Hi") ++ [0xEF; 0xBF; 0xBD]
        ++ skipn (S i) (Buffer_from "Hi") /\
    String.length (introduceBitError "Hi" {| draw_num := 1; draw_gap := 0 |}
                     {| draw_num := 7; draw_gap := 0 |})
      = (String.length "Hi" + 2)%nat.
Proof.
  apply (X8_top_bit_error_puts_replacement_character "Hi"
           {| draw_num := 1; draw_gap := 0 |}
           {| draw_num := 7; draw_gap := 0 |}).
  - repeat constructor; vm_compute; congruence.
  - discriminate.
  - vm_compute. reflexivity.
Defined.

Lemma X9_witness :
  introduceBitError "Hi" {| draw_num := 1; draw_gap := 0 |}
    {| draw_num := 7; draw_gap := 0 |} = "Hi"%string
  <-> "Hi"%string = EmptyString.
Proof.
  apply (X9_bit_error_changes_all_but_the_empty_string "Hi"
           {| draw_num := 1; draw_gap := 0 |}
           {| draw_num := 7; draw_gap := 0 |}).
  repeat constructor; vm_compute; congruence.
Defined.

(** ** The senders on the virtual socket *)

Lemma invocations_bounded (id k : nat) (w : World) :
  quiescent (run k w) ->
  forall n, (invocations id (run n w) <= invocations id (run k w))%nat.
Proof.
  intros Q n. destruct (Nat.le_gt_cases k n) as [L|L].
  - rewrite (run_stable k n w Q L). lia.
  - replace k with (n + (k - n))%nat by lia. rewrite run_add.
    apply invocations_mono.
Qed.

Lemma corrupted_packet_is_not_ACK (data : string) (r_byte r_bit : draw) :
  is_ACK (VString (introduceBitError (JSON_stringify data (generateCRC8 data))
                     r_byte r_bit)) = false.
Proof.
  apply (delivered_not_signal data). right. eauto.
Qed.

Lemma corrupted_packet_is_not_NAK (data : string) (r_byte r_bit : draw) :
  is_NAK (VString (introduceBitError (JSON_stringify data (generateCRC8 data))
                     r_byte r_bit)) = false.
Proof.
  apply (delivered_not_signal data). right. eauto.
Qed.

Ltac not_a_signal :=
  rewrite ?packet_is_not_ACK, ?packet_is_not_NAK,
    ?corrupted_packet_is_not_ACK, ?corrupted_packet_is_not_NAK.

(** X10. The NAK-only sender on a socket made by [createVirtualSocket],
    whatever its probabilities and draws: it transmits exactly once, and
    it calls the completion callback once if the packet is not dropped,
    corrupted or not, and never if it is dropped; within six steps
    nothing is left to run. *)
Theorem X10_NAK_only_completes_unless_dropped (config : ChannelConfig)
  (data : string) (id : nat) (rnd : nat -> draw) (peer : nat -> outcome) :
  let w0 := boot [LayerSend (LayerNAK (VirtualSocket config)) data
                    (External id)] rnd peer in
  quiescent (run 6 w0) /\
  transmissions (run 6 w0) = [make_packet data] /\
  invocations id (run 6 w0)
    = (if Qlt_bool (draw_val (rnd 0%nat)) (dropProbability config)
       then 0%nat else 1%nat) /\
  forall n, (invocations id (run n w0) <= invocations id (run 6 w0))%nat.
Proof.
  intros w0.
  assert (F : quiescent (run 6 w0) /\
    transmissions (run 6 w0) = [make_packet data] /\
    invocations id (run 6 w0)
      = (if Qlt_bool (draw_val (rnd 0%nat)) (dropProbability config)
         then 0%nat else 1%nat)).
  { subst w0. unfold make_packet. do 2 step_once.
    destruct (Qlt_bool (draw_val (rnd 0%nat)) (dropProbability config)).
    { rewrite run_quiescent by reflexivity. repeat split. }
    destruct (Qlt_bool (draw_val (rnd 1%nat)) (delayProbability config)).
    - do 2 step_once.
      destruct (Qlt_bool (draw_val (rnd 3%nat)) (errorProbability config));
        step_once; not_a_signal; step_once; cbn [run];
        unfold invocations; cbn [trace filter is_call_of];
        rewrite Nat.eqb_refl; repeat split.
    - step_once.
      destruct (Qlt_bool (draw_val (rnd 2%nat)) (errorProbability config));
        step_once; not_a_signal; step_once;
        rewrite run_quiescent by reflexivity;
        unfold invocations; cbn [trace filter is_call_of];
        rewrite Nat.eqb_refl; repeat split. }
  destruct F as (Q & T & I).
  repeat split; try assumption.
  apply invocations_bounded, Q.
Qed.

(** X11. The ACK+NAK sender on a socket made by [createVirtualSocket],
    whatever its probabilities and draws: it transmits exactly once, does
    not retransmit, never calls the completion callback, and within five
    steps nothing is left to run. *)
Theorem X11_ACKNAK_sends_once_and_stalls (config : ChannelConfig)
  (data : string) (id : nat) (rnd : nat -> draw) (peer : nat -> outcome) :
  let w0 := boot [LayerSend (LayerACKNAK (VirtualSocket config)) data
                    (External id)] rnd peer in
  quiescent (run 5 w0) /\
  transmissions (run 5 w0) = [make_packet data] /\
  forall n, invocations id (run n w0) = 0%nat.
Proof.
  intros w0.
  assert (F : quiescent (run 5 w0) /\
    transmissions (run 5 w0) = [make_packet data] /\
    invocations id (run 5 w0) = 0%nat).
  { subst w0. unfold make_packet. do 2 step_once.
    destruct (Qlt_bool (draw_val (rnd 0%nat)) (dropProbability config)).
    { rewrite run_quiescent by reflexivity. repeat split. }
    destruct (Qlt_bool (draw_val (rnd 1%nat)) (delayProbability config)).
    - do 2 step_once.
      destruct (Qlt_bool (draw_val (rnd 3%nat)) (errorProbability config));
        step_once; not_a_signal; cbn [run]; repeat split.
    - step_once.
      destruct (Qlt_bool (draw_val (rnd 2%nat)) (errorProbability config));
        step_once; not_a_signal;
        rewrite run_quiescent by reflexivity; repeat split. }
  destruct F as (Q & T & I).
  repeat split; try assumption.
  apply (never_invoked id 5 w0 Q I).
Qed.

Section QuietRuns.

Variable data : string.

Ltac close_quiet :=
  repeat match goal with
  | |- _ /\ _ => split
  | |- Forall _ (_ :: _) => apply Forall_cons
  | |- Forall _ (_ ++ _) => apply Forall_app; split
  | |- Forall _ [] => apply Forall_nil
  end;
  cbn [quiet_action quiet_task quiet_event snd completes_on_ACK_only];
  try assumption; try exact I.

Lemma exec_quiet (a : action) (w : World) :
  action_ok data a -> quiet_action a -> quiet w -> quiet (exec a w).
Proof.
  destruct w as [st ts now cs rnd pos scr srv tr].
  unfold quiet. cbn [stack timers trace].
  intros Ha Hq (Hs & Ht & He).
  destruct a as [cb arg|s d cb|config cb d|t delay|s T p k|l d cb];
    cbn [action_ok quiet_action] in Ha, Hq.
  - destruct cb as [n|s p k|s p k|s T p c k]; try destruct Hq;
      destruct Ha as [[]|(Hh & x & -> & D)];
      destruct (delivered_not_signal data x D) as [E1 E2];
      machine; rewrite ?E1, ?E2; close_quiet.
  - destruct Ha as (Hv & _ & _). destruct s as [config|]; [|destruct Hv].
    machine. split_cases; machine; close_quiet.
  - machine. split_cases; machine; close_quiet.
  - machine. close_quiet.
  - machine. close_quiet.
  - destruct l as [s|s T|s]; try destruct Hq; machine; close_quiet.
Qed.

Lemma fire_quiet (t : task) (w : World) :
  quiet_task t -> quiet w -> quiet (fire t w).
Proof.
  destruct w as [st ts now cs rnd pos scr srv tr].
  unfold quiet. cbn [stack timers trace].
  intros Hq (Hs & Ht & He).
  destruct t as [s T p c k|config cb d|cb r]; cbn [quiet_task] in Hq.
  - machine. destruct (negb _); close_quiet.
  - machine. split_cases; machine; close_quiet.
  - destruct Hq.
Qed.

Lemma step_quiet (w w' : World) :
  step w = Some w' -> composed data w -> quiet w -> quiet w'.
Proof.
  unfold step. destruct (stack w) as [|a k] eqn:Es.
  - destruct (next_timer (timers w)) as [[[due t] rest]|] eqn:En;
      [|discriminate].
    intros E _ (Hs & Ht & He). injection E as <-.
    destruct (next_timer_Forall _ _ _ _ En Ht) as [Hd Hrest].
    apply fire_quiet; [exact Hd|].
    destruct w; unfold quiet; cbn in *. subst. auto.
  - intros E (Cs & _ & _) (Hs & Ht & He). injection E as <-.
    rewrite Es in Hs, Cs.
    inversion Hs as [|? ? Ha Hk]; subst.
    inversion Cs as [|? ? Ca Ck]; subst.
    apply exec_quiet; [exact Ca | exact Ha |].
    destruct w; unfold quiet; cbn in *. auto.
Qed.

Lemma run_quiet (n : nat) (w : World) :
  composed data w -> quiet w -> quiet (run n w).
Proof.
  revert w. induction n as [|n IH]; intros w C Q; simpl; [exact Q|].
  destruct (step w) as [w'|] eqn:E; [|exact Q].
  apply IH; [apply (step_composed data w w' E C) | apply (step_quiet w w' E C Q)].
Qed.

End QuietRuns.

Lemma quiet_trace_has_no_completion (id : nat) (tr : list event) :
  Forall quiet_event tr -> filter (is_call_of (External id)) tr = [].
Proof.
  induction 1 as [|e tr He _ IH]; [reflexivity|].
  cbn [filter]. destruct e as [l|s d cb|cb arg]; try exact IH.
  destruct cb; cbn in He; try destruct He; exact IH.
Qed.

(** X12. The ACK-only sender on a socket made by [createVirtualSocket]
    never calls the completion callback: whatever the probabilities, the
    timeout, the draws and the length of the run, its [handleResponse] is
    entered with packet text only, and the branch that completes is
    never taken. *)
Theorem X12_ACK_only_never_completes (config : ChannelConfig)
  (timeoutMs : Q) (data : string) (id : nat) (rnd : nat -> draw)
  (peer : nat -> outcome) (n : nat) :
  invocations id
    (run n (boot [LayerSend (LayerACK (VirtualSocket config) timeoutMs) data
                    (External id)] rnd peer)) = 0%nat.
Proof.
  set (w0 := boot _ rnd peer).
  assert (C : composed data w0).
  { unfold composed, w0, boot. cbn [stack timers trace].
    repeat split; try apply Forall_nil.
    apply Forall_cons; [|apply Forall_nil]. cbn. auto. }
  assert (Q : quiet w0).
  { unfold quiet, w0, boot. cbn [stack timers trace].
    repeat split; try apply Forall_nil.
    apply Forall_cons; [exact I | apply Forall_nil]. }
  destruct (run_quiet data n w0 C Q) as (_ & _ & He).
  unfold invocations. now rewrite quiet_trace_has_no_completion.
Qed.

(** ** Recovery: the senders against a peer that answers *)

Lemma ltb_lt_true (m k : nat) : (m < k)%nat -> (m <? k)%nat = true.
Proof. apply Nat.ltb_lt. Qed.

Lemma awaiting_answer_again_ACKNAK (k : nat) (ok : jsval) (packet : string)
  (id m : nat) (w : World) :
  let h := ACKNAK_handleResponse ScriptedSocket packet (External id) in
  (m < k)%nat ->
  awaiting_answer h k ok packet id m w ->
  awaiting_answer h k ok packet id (S m) (run 4 w).
Proof.
  destruct w as [st ts now cs rnd pos scr srv tr]. cbv zeta.
  unfold awaiting_answer, transmissions, invocations.
  cbn [stack timers script served trace].
  intros L (-> & (due & ->) & -> & -> & Htr & Hinv).
  rewrite (ltb_lt_true m k L).
  step_once. step_once. rewrite NAK_is_not_ACK, NAK_is_NAK.
  step_once.
  change (NAK_times k ok (S m))
    with (AnswerAfter (if (S m <? k)%nat then VString "NAK" else ok) 1).
  cbv beta iota.
  step_once. cbn [run].
  repeat split.
  - eexists. reflexivity.
  - cbn [sent_data]. rewrite Htr. symmetry. apply repeat_cons.
  - cbn [filter is_call_of]. exact Hinv.
Qed.

Lemma awaiting_answer_again_NAK (k : nat) (ok : jsval) (packet : string)
  (id m : nat) (w : World) :
  let h := NAK_handleResponse ScriptedSocket packet (External id) in
  (m < k)%nat ->
  awaiting_answer h k ok packet id m w ->
  awaiting_answer h k ok packet id (S m) (run 4 w).
Proof.
  destruct w as [st ts now cs rnd pos scr srv tr]. cbv zeta.
  unfold awaiting_answer, transmissions, invocations.
  cbn [stack timers script served trace].
  intros L (-> & (due & ->) & -> & -> & Htr & Hinv).
  rewrite (ltb_lt_true m k L).
  step_once. step_once. rewrite NAK_is_NAK.
  step_once.
  change (NAK_times k ok (S m))
    with (AnswerAfter (if (S m <? k)%nat then VString "NAK" else ok) 1).
  cbv beta iota.
  step_once. cbn [run].
  repeat split.
  - eexists. reflexivity.
  - cbn [sent_data]. rewrite Htr. symmetry. apply repeat_cons.
  - cbn [filter is_call_of]. exact Hinv.
Qed.

Lemma cycles (P : nat -> World -> Prop) (w0 : World) (k0 period k : nat) :
  P 0%nat (run k0 w0) ->
  (forall m w, (m < k)%nat -> P m w -> P (S m) (run period w)) ->
  P k (run (k0 + k * period) w0).
Proof.
  intros H0 Hstep.
  assert (A : forall m, (m <= k)%nat -> P m (run (k0 + m * period) w0)).
  { induction m as [|m IH]; intros L.
    - now rewrite Nat.add_0_r.
    - replace (k0 + S m * period)%nat with ((k0 + m * period) + period)%nat
        by lia.
      rewrite run_add. apply Hstep; [lia | apply IH; lia]. }
  apply A. lia.
Qed.

(** X13. Recovery of the ACK+NAK sender: against a peer that answers
    "NAK" to the first [k] transmissions and "ACK" to the next, it
    transmits the same packet exactly [k + 1] times, calls the completion
    callback exactly once, and then nothing is left to run. *)
Theorem X13_ACKNAK_retransmits_per_NAK_and_completes_on_ACK (k : nat)
  (data : string) (id : nat) (rnd : nat -> draw) :
  let w0 := boot [LayerSend (LayerACKNAK ScriptedSocket) data (External id)]
              rnd (NAK_times k (VString "ACK")) in
  let w := run (3 + k * 4 + 3) w0 in
  quiescent w /\
  transmissions w = repeat (make_packet data) (S k) /\
  invocations id w = 1%nat /\
  forall n, (invocations id (run n w0) <= 1)%nat.
Proof.
  intros w0 w.
  pose (h := ACKNAK_handleResponse ScriptedSocket (make_packet data)
               (External id)).
  assert (A : awaiting_answer h k (VString "ACK") (make_packet data) id k
                (run (3 + k * 4) w0)).
  { apply (cycles (awaiting_answer h k (VString "ACK") (make_packet data) id)).
    - subst w0 h. unfold awaiting_answer, make_packet.
      do 2 step_once.
      match goal with
      | |- context [NAK_times k ?ok 0%nat] =>
          change (NAK_times k ok 0%nat)
            with (AnswerAfter (if (0 <? k)%nat then VString "NAK" else ok) 1)
      end.
      cbv beta iota.
      step_once. cbn [run]. repeat split. eexists. reflexivity.
    - intros m w' L. apply awaiting_answer_again_ACKNAK, L. }
  assert (F : quiescent w /\
              transmissions w = repeat (make_packet data) (S k) /\
              invocations id w = 1%nat).
  { subst w. rewrite run_add.
    destruct (run (3 + k * 4) w0) as [st ts now cs rnd' pos scr srv tr].
    revert A. unfold awaiting_answer, transmissions, invocations.
    cbn [stack timers script served trace].
    intros (-> & (due & ->) & -> & -> & Htr & Hinv).
    rewrite Nat.ltb_irrefl. subst h.
    step_once. step_once.
    change (is_ACK (VString "ACK")) with true. cbv iota.
    step_once. cbn [run].
    repeat split.
    - exact Htr.
    - cbn [filter is_call_of]. rewrite Nat.eqb_refl. cbn [List.length].
      now rewrite Hinv. }
  destruct F as (Q & T & I). repeat split; try assumption.
  intros n. rewrite <- I. apply invocations_bounded, Q.
Qed.

(** X14. The NAK-only sender completes on anything that is not "NAK":
    against a peer that answers "NAK" to the first [k] transmissions and
    any other response to the next, it transmits the same packet exactly
    [k + 1] times and calls the completion callback exactly once. *)
Theorem X14_NAK_only_retransmits_per_NAK_and_completes_otherwise (k : nat)
  (ok : jsval) (data : string) (id : nat) (rnd : nat -> draw) :
  is_NAK ok = false ->
  let w0 := boot [LayerSend (LayerNAK ScriptedSocket) data (External id)]
              rnd (NAK_times k ok) in
  let w := run (3 + k * 4 + 3) w0 in
  quiescent w /\
  transmissions w = repeat (make_packet data) (S k) /\
  invocations id w = 1%nat /\
  forall n, (invocations id (run n w0) <= 1)%nat.
Proof.
  intros Hok w0 w.
  pose (h := NAK_handleResponse ScriptedSocket (make_packet data)
               (External id)).
  assert (A : awaiting_answer h k ok (make_packet data) id k
                (run (3 + k * 4) w0)).
  { apply (cycles (awaiting_answer h k ok (make_packet data) id)).
    - subst w0 h. unfold awaiting_answer, make_packet.
      do 2 step_once.
      match goal with
      | |- context [NAK_times k ?ok 0%nat] =>
          change (NAK_times k ok 0%nat)
            with (AnswerAfter (if (0 <? k)%nat then VString "NAK" else ok) 1)
      end.
      cbv beta iota.
      step_once. cbn [run]. repeat split. eexists. reflexivity.
    - intros m w' L. apply awaiting_answer_again_NAK, L. }
  assert (F : quiescent w /\
              transmissions w = repeat (make_packet data) (S k) /\
              invocations id w = 1%nat).
  { subst w. rewrite run_add.
    destruct (run (3 + k * 4) w0) as [st ts now cs rnd' pos scr srv tr].
    revert A. unfold awaiting_answer, transmissions, invocations.
    cbn [stack timers script served trace].
    intros (-> & (due & ->) & -> & -> & Htr & Hinv).
    rewrite Nat.ltb_irrefl. subst h.
    step_once. step_once. rewrite Hok.
    step_once. cbn [run].
    repeat split.
    - exact Htr.
    - cbn [filter is_call_of]. rewrite Nat.eqb_refl. cbn [List.length].
      now rewrite Hinv. }
  destruct F as (Q & T & I). repeat split; try assumption.
  intros n. rewrite <- I. apply invocations_bounded, Q.
Qed.

Lemma timer_delay_at_least_1 (delay : Q) : 1 <= timer_delay delay.
Proof.
  unfold timer_delay.
  destruct (Qle_bool 1 delay && Qle_bool delay 2147483647) eqn:E; [|lia].
  apply andb_true_iff in E. destruct E as [E _].
  apply Qle_bool_iff in E. apply Qfloor_resp_le in E.
  change (Qfloor 1) with 1 in E. exact E.
Qed.

Lemma repeat_snoc (A : Type) (a : A) (n : nat) :
  repeat a n ++ [a] = repeat a (S n).
Proof. symmetry. apply repeat_cons. Qed.

Lemma about_to_send_again (timeoutMs : Q) (k : nat) (packet : string)
  (id m : nat) (w : World) :
  (m < k)%nat ->
  about_to_send timeoutMs k packet id m w ->
  about_to_send timeoutMs k packet id (S m) (run 4 w).
Proof.
  destruct w as [st ts now cs rnd pos scr srv tr].
  unfold about_to_send, transmissions, invocations.
  cbn [stack timers cells script served trace].
  intros L (-> & -> & -> & -> & -> & Htr & Hinv).
  step_once. step_once.
  change (lost_times k m) with (if (m <? k)%nat
                                then Lose
                                else AnswerAfter (VString "ACK") 1).
  rewrite (ltb_lt_true m k L). cbv iota.
  step_once. step_once.
  rewrite repeat_length, repeat_snoc, nth_repeat.
  cbn [negb run]. cbv iota.
  repeat split.
  - cbn [sent_data]. rewrite Htr. symmetry. apply repeat_cons.
  - cbn [filter is_call_of]. exact Hinv.
Qed.

Lemma set_true_last (m : nat) :
  set_true m (repeat false m ++ [false]) = repeat false m ++ [true].
Proof. induction m as [|m IH]; cbn; [reflexivity | now rewrite IH]. Qed.

Lemma nth_last_true (m : nat) :
  nth m (repeat false m ++ [true]) false = true.
Proof. induction m as [|m IH]; cbn; [reflexivity | exact IH]. Qed.

(** X15. Timeout-triggered retry of the ACK-only sender: against a peer
    that loses the first [k] transmissions and acknowledges the next
    within the timeout, it transmits the same packet exactly [k + 1]
    times, once at the start and once per timeout, calls the completion
    callback exactly once, and the last timer finds [ackReceived] set:
    nothing is left to run. *)
Theorem X15_ACK_only_retries_on_timeout_and_completes_on_ACK (k : nat)
  (timeoutMs : Q) (data : string) (id : nat) (rnd : nat -> draw) :
  let w0 := boot [LayerSend (LayerACK ScriptedSocket timeoutMs) data
                    (External id)] rnd (lost_times k) in
  let w := run (1 + k * 4 + 8) w0 in
  quiescent w /\
  transmissions w = repeat (make_packet data) (S k) /\
  invocations id w = 1%nat /\
  cells w = repeat false k ++ [true] /\
  forall n, (invocations id (run n w0) <= 1)%nat.
Proof.
  intros w0 w.
  assert (A : about_to_send timeoutMs k (make_packet data) id k
                (run (1 + k * 4) w0)).
  { apply (cycles (about_to_send timeoutMs k (make_packet data) id)).
    - subst w0. unfold about_to_send, make_packet.
      step_once. cbn [run]. repeat split.
    - intros m w' L. apply about_to_send_again, L. }
  assert (F : quiescent w /\
              transmissions w = repeat (make_packet data) (S k) /\
              invocations id w = 1%nat /\
              cells w = repeat false k ++ [true]).
  { subst w. rewrite run_add.
    destruct (run (1 + k * 4) w0) as [st ts now cs rnd' pos scr srv tr].
    revert A. unfold about_to_send, transmissions, invocations.
    cbn [stack timers cells script served trace].
    intros (-> & -> & -> & -> & -> & Htr & Hinv).
    step_once. step_once.
    change (lost_times k k) with (if (k <? k)%nat
                                  then Lose
                                  else AnswerAfter (VString "ACK") 1).
    rewrite Nat.ltb_irrefl. cbv iota.
    step_once. step_once. rewrite run_unfold.
    cbv beta iota zeta delta [step stack timers next_timer fst].
    change (timer_delay 1) with 1.
    replace (now + 1 <=? now + timer_delay timeoutMs) with true
      by (symmetry; apply Z.leb_le;
          pose proof (timer_delay_at_least_1 timeoutMs); lia).
    cbv iota.
    match goal with
    | |- context [run 3 (fire ?t ?w)] =>
        let x := eval cbv beta iota zeta delta
                   [fire push with_timers with_stack stack timers clock cells
                    random drawn script served trace app] in (fire t w) in
        change (fire t w) with x
    end.
    step_once.
    change (is_ACK (VString "ACK")) with true. cbv iota.
    step_once. step_once.
    rewrite repeat_length, set_true_last, nth_last_true.
    cbn [negb run]. cbv iota.
    repeat split.
    - cbn [sent_data]. rewrite Htr. symmetry. apply repeat_cons.
    - cbn [filter is_call_of]. rewrite Nat.eqb_refl. cbn [List.length].
      now rewrite Hinv. }
  destruct F as (Q & T & I & C). repeat split; try assumption.
  intros n. rewrite <- I. apply invocations_bounded, Q.
Qed.

Lemma X14_witness :
  let w0 := boot [LayerSend (LayerNAK ScriptedSocket) "A" (External 0)]
              (fun _ => {| draw_num := 0; draw_gap := 0 |})
              (NAK_times 2 (VString "ACK")) in
  let w := run (3 + 2 * 4 + 3) w0 in
  quiescent w /\
  transmissions w = repeat (make_packet "A") 3 /\
  invocations 0 w = 1%nat /\
  forall n, (invocations 0 (run n w0) <= 1)%nat.
Proof.
  apply (X14_NAK_only_retransmits_per_NAK_and_completes_otherwise 2
           (VString "ACK") "A" 0
           (fun _ => {| draw_num := 0; draw_gap := 0 |})).
  reflexivity.
Defined.

(** ** How late the socket delivers *)




(** ** Completions and transmissions *)

Lemma pending_tasks_app (ts us : list (Z * task)) :
  pending_tasks (ts ++ us) = (pending_tasks ts + pending_tasks us)%nat.
Proof.
  induction ts as [|[d t] ts IH]; cbn [app pending_tasks]; [reflexivity|].
  rewrite IH. lia.
Qed.

Lemma pending_tasks_next (ts : list (Z * task)) (due : Z) (t : task)
  (rest : list (Z * task)) :
  next_timer ts = Some ((due, t), rest) ->
  pending_tasks ts = (pending_task t + pending_tasks rest)%nat.
Proof.
  revert due t rest. induction ts as [|[d x] ts IH]; intros due t rest E.
  - discriminate.
  - cbn [next_timer] in E.
    destruct (next_timer ts) as [[[d' u] rest']|] eqn:N.
    + specialize (IH d' u rest' eq_refl).
      destruct (fst (d, x) <=? fst (d', u)); injection E as <- <- <-;
        cbn [pending_tasks].
      * reflexivity.
      * rewrite IH. lia.
    + injection E as <- <- <-.
      destruct ts as [|y ts']; [reflexivity|]. exfalso.
      cbn [next_timer] in N. destruct (next_timer ts') as [[u rest']|].
      * destruct (fst y <=? fst u); discriminate.
      * discriminate.
Qed.

Ltac count :=
  unfold paid_for in *;
  cbn [stack timers trace pending_actions pending_action pending_task
       pending_tasks count_completions count_sent] in *;
  rewrite ?pending_tasks_app;
  cbn [pending_tasks pending_task] in *;
  try lia.

Lemma exec_paid_for (a : action) (k : list action) (w : World) :
  stack w = a :: k -> paid_for w -> paid_for (exec a (with_stack k w)).
Proof.
  destruct w as [st ts now cs rnd pos scr srv tr]. cbn [stack].
  intros -> P.
  destruct a as [cb arg|s d cb|config cb d|t delay|s T p c|l d cb].
  - destruct cb; machine; split_cases; machine; count.
  - destruct s; machine; split_cases; machine; count.
  - machine; split_cases; machine; count.
  - machine; count.
  - machine; count.
  - destruct l; machine; count.
Qed.

Lemma fire_paid_for (w : World) (due : Z) (t : task)
  (rest : list (Z * task)) :
  stack w = [] -> next_timer (timers w) = Some ((due, t), rest) ->
  paid_for w -> paid_for (fire t (with_timers rest due w)).
Proof.
  destruct w as [st ts now cs rnd pos scr srv tr]. cbn [stack timers].
  intros -> E P. apply pending_tasks_next in E.
  destruct t; machine; split_cases; machine; count.
Qed.

Lemma step_paid_for (w w' : World) :
  step w = Some w' -> paid_for w -> paid_for w'.
Proof.
  unfold step. destruct (stack w) as [|a k] eqn:Es.
  - destruct (next_timer (timers w)) as [[[due t] rest]|] eqn:En;
      [|discriminate].
    intros E P. injection E as <-. now apply fire_paid_for.
  - intros E P. injection E as <-. now apply exec_paid_for.
Qed.

Lemma run_paid_for (n : nat) (w : World) : paid_for w -> paid_for (run n w).
Proof.
  revert w. induction n as [|n IH]; intros w P; simpl; [exact P|].
  destruct (step w) as [w'|] eqn:E; [|exact P].
  apply IH, (step_paid_for w w' E P).
Qed.

Lemma invocations_are_completions (id : nat) (tr : list event) :
  (List.length (filter (is_call_of (External id)) tr)
   <= count_completions tr)%nat.
Proof.
  induction tr as [|e tr IH]; [cbn; lia|].
  destruct e as [l|s d cb|cb arg]; cbn [filter is_call_of count_completions];
    try exact IH.
  destruct cb; cbn [filter is_call_of count_completions]; try exact IH.
  destruct (Nat.eqb _ _); cbn [List.length]; lia.
Qed.

Lemma sent_data_length (tr : list event) :
  List.length (sent_data tr) = count_sent tr.
Proof.
  induction tr as [|e tr IH]; [reflexivity|].
  destruct e; cbn [sent_data count_sent]; try exact IH.
  rewrite length_app, IH. cbn. lia.
Qed.

(** X17. No sender reports more completions than it made transmissions:
    in a run of any of the three layers, on a socket made by
    [createVirtualSocket] or on any scripted peer, the completion
    callback has at every moment been called at most as often as
    [virtualSocket.send] has been entered. In particular a second
    completion, as the ACK-only sender can produce, takes a second
    transmission. *)
Theorem X17_completions_never_exceed_transmissions (l : layer)
  (data : string) (id : nat) (rnd : nat -> draw) (peer : nat -> outcome)
  (n : nat) :
  let w := run n (boot [LayerSend l data (External id)] rnd peer) in
  (invocations id w <= List.length (transmissions w))%nat.
Proof.
  intros w.
  assert (P : paid_for w).
  { apply run_paid_for. unfold paid_for, boot. cbn. lia. }
  unfold paid_for in P. unfold invocations, transmissions.
  rewrite sent_data_length.
  pose proof (invocations_are_completions id (trace w)). lia.
Qed.

(** ** The ACK-only sender on the virtual socket never stops *)

Lemma sum_tasks_app (f : task -> nat) (ts us : list (Z * task)) :
  sum_tasks f (ts ++ us) = (sum_tasks f ts + sum_tasks f us)%nat.
Proof.
  induction ts as [|[d t] ts IH]; cbn [app sum_tasks]; [reflexivity|].
  rewrite IH. lia.
Qed.

Lemma next_timer_none (ts : list (Z * task)) :
  next_timer ts = None -> ts = [].
Proof.
  destruct ts as [|y ts]; [reflexivity|]. cbn [next_timer].
  destruct (next_timer ts) as [[u rest]|]; [|discriminate].
  destruct (fst y <=? fst u); discriminate.
Qed.

Lemma sum_tasks_next (f : task -> nat) (ts : list (Z * task)) (due : Z)
  (t : task) (rest : list (Z * task)) :
  next_timer ts = Some ((due, t), rest) ->
  sum_tasks f ts = (f t + sum_tasks f rest)%nat.
Proof.
  revert due t rest. induction ts as [|[d x] ts IH]; intros due t rest E.
  - discriminate.
  - cbn [next_timer] in E.
    destruct (next_timer ts) as [[[d' u] rest']|] eqn:N.
    + specialize (IH d' u rest' eq_refl).
      destruct (fst (d, x) <=? fst (d', u)); injection E as <- <- <-;
        cbn [sum_tasks].
      * reflexivity.
      * rewrite IH. lia.
    + injection E as <- <- <-. apply next_timer_none in N. now subst ts.
Qed.

Lemma all_false_nth (cs : list bool) (i : nat) :
  Forall (fun c => c = false) cs -> nth i cs false = false.
Proof.
  intros F. revert i. induction F as [|c cs -> _ IH]; intros [|i];
    cbn [nth]; auto.
Qed.

Lemma all_false_snoc (cs : list bool) :
  Forall (fun c => c = false) cs -> Forall (fun c => c = false) (cs ++ [false]).
Proof. intros F. apply Forall_app. split; [exact F | repeat constructor]. Qed.

Ltac tally :=
  unfold weight in *;
  cbn [stack timers trace cells sum_actions sum_tasks arming_action
       arming_task sender_action unsent_action weight_action weight_task
       count_sent of_ACK_layer] in *;
  rewrite ?sum_tasks_app, ?length_app in *;
  cbn [sum_tasks arming_task weight_task List.length] in *.

Ltac settle :=
  repeat split; auto; try lia; try (repeat constructor; auto; fail).

Section Retrying.

Variable data : string.

(** One step of a retrying sender: it stays one, and either a new
    [sendWithTimeout] has started or less is left to do before the
    next. *)
Lemma retrying_step (w : World) :
  retrying data w ->
  exists w', step w = Some w' /\ retrying data w' /\
    (List.length (cells w') = S (List.length (cells w)) \/
     (List.length (cells w') = List.length (cells w) /\
      weight w' < weight w)%nat).
Proof.
  intros (C & Q & F & L & A & S1 & U).
  destruct (step w) as [w'|] eqn:E.
  2:{ exfalso. unfold step in E. destruct (stack w) as [|a k] eqn:Es;
        [|discriminate].
      destruct (next_timer (timers w)) as [[[due t] rest]|] eqn:En;
        [discriminate|].
      apply next_timer_none in En. rewrite En in A. cbn in A. lia. }
  exists w'. split; [reflexivity|].
  pose proof (step_composed data w w' E C) as C'.
  pose proof (step_quiet data w w' E C Q) as Q'.
  assert (R : Forall (fun c => c = false) (cells w') /\
              Forall of_ACK_layer (stack w') /\
              (1 <= sum_actions arming_action (stack w')
                    + sum_tasks arming_task (timers w'))%nat /\
              (sum_actions sender_action (stack w') <= 1)%nat /\
              (count_sent (trace w') + sum_actions unsent_action (stack w')
               = List.length (cells w'))%nat /\
              (List.length (cells w') = S (List.length (cells w)) \/
               (List.length (cells w') = List.length (cells w) /\
                weight w' < weight w)%nat)).
  { clear C' Q'. destruct C as (Cs & _ & _). destruct Q as (Qs & Qt & _).
    destruct w as [st ts now cs rnd pos scr srv tr].
    unfold step in E. cbn [stack timers cells trace] in *.
    destruct st as [|a k].
    - destruct (next_timer ts) as [[[due t] rest]|] eqn:En; [|discriminate].
      injection E as <-.
      pose proof (sum_tasks_next arming_task _ _ _ _ En) as A1.
      pose proof (sum_tasks_next weight_task _ _ _ _ En) as W1.
      destruct (next_timer_Forall _ _ _ _ En Qt) as [Qd _].
      cbn [snd] in Qd.
      destruct t as [s T p c cb|config cb d|cb r]; [| |destruct Qd].
      + machine. rewrite (all_false_nth cs c F). cbn [negb]. tally. settle.
      + machine. split_cases; machine; tally; settle.
    - injection E as <-.
      inversion Cs as [|? ? Ca Ck]; subst.
      inversion Qs as [|? ? Qa Qk]; subst.
      inversion L as [|? ? La Lk]; subst.
      destruct a as [cb arg|s d cb|config cb d|t delay|s T p cb|l d cb];
        cbn [action_ok quiet_action of_ACK_layer] in Ca, Qa, La.
      + destruct cb as [n|s p cb|s p cb|s T p c cb]; try destruct Qa;
          destruct Ca as [[]|(Hh & x & -> & D)];
          destruct (delivered_not_signal data x D) as [E1 E2];
          machine; rewrite ?E1, ?E2; tally; settle.
      + destruct Ca as (Hv & _ & _). destruct s as [config|]; [|destruct Hv].
        machine. split_cases; machine; tally; settle.
      + machine. split_cases; machine; tally; settle.
      + machine. tally. settle.
      + machine. tally. settle. apply all_false_snoc, F.
      + destruct l as [s|s T|s]; try destruct La.
        machine. tally. settle. }
  destruct R as (F' & L' & A' & S' & U' & P).
  split; [|exact P]. unfold retrying. auto 10.
Qed.

Lemma next_sendWithTimeout (m : nat) (w : World) :
  (weight w < m)%nat -> retrying data w ->
  exists j, retrying data (run j w) /\
    List.length (cells (run j w)) = S (List.length (cells w)).
Proof.
  revert w. induction m as [|m IH]; intros w Hm R; [lia|].
  destruct (retrying_step w R) as (w' & E & R' & [P|[P W]]).
  - exists 1%nat. cbn [run]. rewrite E. auto.
  - destruct (IH w' ltac:(lia) R') as (j & Rj & Pj).
    exists (S j). cbn [run]. rewrite E. split; [exact Rj | lia].
Qed.

Lemma any_number_of_sendWithTimeout (n : nat) (w : World) :
  retrying data w ->
  exists j, retrying data (run j w) /\
    (n <= List.length (cells (run j w)))%nat.
Proof.
  induction n as [|n IH]; intros R.
  - exists 0%nat. cbn [run]. split; [exact R | lia].
  - destruct (IH R) as (j & Rj & Lj).
    destruct (next_sendWithTimeout (S (weight (run j w))) (run j w)
                ltac:(lia) Rj) as (i & Ri & Li).
    exists (j + i)%nat. rewrite run_add. split; [exact Ri | lia].
Qed.

Lemma sent_packets (tr : list event) :
  Forall (event_ok data) tr ->
  sent_data tr = repeat (make_packet data) (count_sent tr).
Proof.
  induction 1 as [|e tr He _ IH]; [reflexivity|].
  destruct e as [l|s d cb|cb arg]; cbn [sent_data count_sent]; try exact IH.
  cbn [event_ok] in He. destruct He as (_ & -> & _).
  rewrite IH. symmetry. apply repeat_cons.
Qed.

Lemma unsent_le_senders (k : list action) :
  (sum_actions unsent_action k <= sum_actions sender_action k)%nat.
Proof.
  induction k as [|a k IH]; cbn [sum_actions]; [lia|].
  destruct a; cbn [unsent_action sender_action]; lia.
Qed.

End Retrying.

(** X18. On a socket made by [createVirtualSocket] the ACK-only sender
    never stops, whatever the probabilities, the timeout and the draws:
    every timer finds [ackReceived] false and sends again, so every
    number of transmissions is reached, all of the one packet, and the
    completion callback is never called. *)
Theorem X18_ACK_only_retransmits_forever_on_the_virtual_socket
  (config : ChannelConfig) (timeoutMs : Q) (data : string) (id : nat)
  (rnd : nat -> draw) (peer : nat -> outcome) :
  retransmits_forever
    (boot [LayerSend (LayerACK (VirtualSocket config) timeoutMs) data
             (External id)] rnd peer)
    (make_packet data) id.
Proof.
  set (w0 := boot _ rnd peer).
  assert (R : retrying data w0).
  { unfold retrying, composed, quiet, w0, boot.
    cbn [stack timers trace cells sum_actions sum_tasks arming_action
         sender_action unsent_action count_sent List.length].
    repeat split; try apply Forall_nil; try lia;
      (apply Forall_cons; [|apply Forall_nil]); cbn; auto. }
  split.
  - intros n.
    destruct (any_number_of_sendWithTimeout data (S n) w0 R)
      as (j & (C & _ & _ & _ & _ & S1 & U) & Lj).
    exists j, (count_sent (trace (run j w0))). split.
    + pose proof (unsent_le_senders (stack (run j w0))). lia.
    + destruct C as (_ & _ & He). apply (sent_packets data), He.
  - intros k.
    assert (C : composed data w0) by apply R.
    assert (Q : quiet w0) by apply R.
    destruct (run_quiet data k w0 C Q) as (_ & _ & He).
    unfold invocations. now rewrite quiet_trace_has_no_completion.
Qed.

(** ** What makes each sender retransmit *)

Lemma retrying_boot (config : ChannelConfig) (timeoutMs : Q) (data : string)
  (id : nat) (rnd : nat -> draw) (peer : nat -> outcome) :
  retrying data
    (boot [LayerSend (LayerACK (VirtualSocket config) timeoutMs) data
             (External id)] rnd peer).
Proof.
  unfold retrying, composed, quiet, boot.
  cbn [stack timers trace cells sum_actions sum_tasks arming_action
       sender_action unsent_action count_sent List.length].
  repeat split; try apply Forall_nil; try lia;
    (apply Forall_cons; [|apply Forall_nil]); cbn; auto.
Qed.

Lemma retrying_retransmits_forever (data : string) (id : nat) (w0 : World) :
  retrying data w0 -> retransmits_forever w0 (make_packet data) id.
Proof.
  intros R. split.
  - intros n.
    destruct (any_number_of_sendWithTimeout data (S n) w0 R)
      as (j & (C & _ & _ & _ & _ & S1 & U) & Lj).
    exists j, (count_sent (trace (run j w0))). split.
    + pose proof (unsent_le_senders (stack (run j w0))). lia.
    + destruct C as (_ & _ & He). apply (sent_packets data), He.
  - intros k. destruct R as (C & Q & _).
    destruct (run_quiet data k w0 C Q) as (_ & _ & He).
    unfold invocations. now rewrite quiet_trace_has_no_completion.
Qed.

Lemma waits_after (k : nat) (w0 : World) (packet : string) (id : nat) :
  quiescent (run k w0) -> transmissions (run k w0) = [packet] ->
  invocations id (run k w0) = 0%nat ->
  (forall j, (j < k)%nat ->
     (List.length (transmissions (run j w0)) <= 1)%nat) ->
  sends_once_and_waits w0 packet id.
Proof.
  intros Q T I B. split; [|split].
  - exists k. split; assumption.
  - intros j. destruct (Nat.le_gt_cases k j) as [L|L].
    + rewrite (run_stable k j w0 Q L), T. cbn [List.length]. lia.
    + apply B, L.
  - apply (never_invoked id k w0 Q I).
Qed.

(** Without a timer a sender does not notice a packet that is dropped:
    the ACK+NAK sender and the NAK-only sender transmit once and wait. *)
Lemma ACKNAK_waits_on_drops (data : string) (id : nat) (rnd : nat -> draw)
  (peer : nat -> outcome) (delayP errorP maxDelay : Q) :
  sends_once_and_waits
    (boot [LayerSend
             (LayerACKNAK
                (VirtualSocket (always_dropping delayP errorP maxDelay)))
             data (External id)] rnd peer)
    (make_packet data) id.
Proof.
  apply (waits_after 2).
  - unfold make_packet. do 2 step_once. rewrite always_below_1. cbn [run].
    reflexivity.
  - unfold make_packet. do 2 step_once. rewrite always_below_1. cbn [run].
    reflexivity.
  - unfold make_packet. do 2 step_once. rewrite always_below_1. cbn [run].
    reflexivity.
  - intros [|[|j]] Hj; [cbn; lia | | lia].
    unfold make_packet. step_once. cbn [run]. cbn. lia.
Qed.

Lemma NAK_waits_on_drops (data : string) (id : nat) (rnd : nat -> draw)
  (peer : nat -> outcome) (delayP errorP maxDelay : Q) :
  sends_once_and_waits
    (boot [LayerSend
             (LayerNAK
                (VirtualSocket (always_dropping delayP errorP maxDelay)))
             data (External id)] rnd peer)
    (make_packet data) id.
Proof.
  apply (waits_after 2).
  - unfold make_packet. do 2 step_once. rewrite always_below_1. cbn [run].
    reflexivity.
  - unfold make_packet. do 2 step_once. rewrite always_below_1. cbn [run].
    reflexivity.
  - unfold make_packet. do 2 step_once. rewrite always_below_1. cbn [run].
    reflexivity.
  - intros [|[|j]] Hj; [cbn; lia | | lia].
    unfold make_packet. step_once. cbn [run]. cbn. lia.
Qed.

Lemma waiting_is_not_retransmitting (w0 : World) (packet : string)
  (id : nat) :
  sends_once_and_waits w0 packet id -> ~ retransmits_forever w0 packet id.
Proof.
  intros (_ & B & _) (T & _).
  destruct (T 2%nat) as (k & m & Hm & E).
  specialize (B k). rewrite E, repeat_length in B. lia.
Qed.

(** C10, as amended. No sender counts its attempts, and what makes a
    sender transmit again differs.  The ACK-only sender does so on every
    timeout: on a socket that drops every packet, and on one that
    corrupts every packet it does not drop, every number of
    transmissions is reached, all of the packet built by the first, and
    the completion callback is never called.  The ACK+NAK sender and the
    NAK-only sender do so on a "NAK" and on nothing else: with a peer
    that answers "NAK" to every packet they retransmit in the same way
    without end, and on a socket that drops every packet they transmit
    once and wait, the completion callback never called. *)
Theorem C10_unbounded_retransmission (data : string) (id : nat)
  (rnd : nat -> draw) (peer : nat -> outcome)
  (timeoutMs dropP delayP errorP maxDelay : Q) :
  (retransmits_forever
     (boot [LayerSend
              (LayerACK
                 (VirtualSocket (always_dropping delayP errorP maxDelay))
                 timeoutMs)
              data (External id)] rnd peer)
     (make_packet data) id /\
   retransmits_forever
     (boot [LayerSend
              (LayerACK
                 (VirtualSocket (always_failing dropP delayP maxDelay))
                 timeoutMs)
              data (External id)] rnd peer)
     (make_packet data) id) /\
  (retransmits_forever
     (boot [LayerSend (LayerACKNAK ScriptedSocket) data (External id)]
        rnd always_NAK)
     (make_packet data) id /\
   retransmits_forever
     (boot [LayerSend (LayerNAK ScriptedSocket) data (External id)]
        rnd always_NAK)
     (make_packet data) id) /\
  (sends_once_and_waits
     (boot [LayerSend
              (LayerACKNAK
                 (VirtualSocket (always_dropping delayP errorP maxDelay)))
              data (External id)] rnd peer)
     (make_packet data) id /\
   sends_once_and_waits
     (boot [LayerSend
              (LayerNAK
                 (VirtualSocket (always_dropping delayP errorP maxDelay)))
              data (External id)] rnd peer)
     (make_packet data) id).
Proof.
  split; [split | split; [split | split]].
  - apply (retransmits_from_cycle
             (awaiting_timeout
                (VirtualSocket (always_dropping delayP errorP maxDelay))
                timeoutMs (make_packet data) id) _ _ _ 4 4); [lia | | | ].
    + unfold awaiting_timeout, make_packet.
      do 3 step_once. rewrite always_below_1. step_once.
      cbn [run].
      repeat split. eexists. reflexivity.
    + intros m w. apply awaiting_timeout_again.
    + intros m w (_ & _ & _ & T & I). split; assumption.
  - apply retrying_retransmits_forever, retrying_boot.
  - apply (retransmits_from_cycle
             (awaiting_NAK
                (ACKNAK_handleResponse ScriptedSocket (make_packet data)
                   (External id))
                (make_packet data) id) _ _ _ 3 4); [lia | | | ].
    + unfold awaiting_NAK, make_packet.
      do 3 step_once. cbn [run].
      repeat split. eexists. reflexivity.
    + intros m w. apply (awaiting_NAK_again_ACKNAK (make_packet data) id m w).
    + intros m w (_ & _ & _ & T & I). split; assumption.
  - apply (retransmits_from_cycle
             (awaiting_NAK
                (NAK_handleResponse ScriptedSocket (make_packet data)
                   (External id))
                (make_packet data) id) _ _ _ 3 4); [lia | | | ].
    + unfold awaiting_NAK, make_packet.
      do 3 step_once. cbn [run].
      repeat split. eexists. reflexivity.
    + intros m w. apply (awaiting_NAK_again_NAK (make_packet data) id m w).
    + intros m w (_ & _ & _ & T & I). split; assumption.
  - apply ACKNAK_waits_on_drops.
  - apply NAK_waits_on_drops.
Qed.

(** C10. On a socket that drops every packet the ACK+NAK sender does not
    retransmit, and neither does the NAK-only sender: each transmits
    "Hello, reliable world!" once. *)
Lemma C10_dropped_packet_is_not_retransmitted :
  ~ retransmits_forever
      (boot [LayerSend
               (LayerACKNAK (VirtualSocket (always_dropping 0 0 1000)))
               "Hello, reliable world!" (External 0)]
         (fun _ => {| draw_num := 0; draw_gap := 0 |}) silent_peer)
      (make_packet "Hello, reliable world!") 0 /\
  ~ retransmits_forever
      (boot [LayerSend
               (LayerNAK (VirtualSocket (always_dropping 0 0 1000)))
               "Hello, reliable world!" (External 0)]
         (fun _ => {| draw_num := 0; draw_gap := 0 |}) silent_peer)
      (make_packet "Hello, reliable world!") 0.
Proof.
  split; apply waiting_is_not_retransmitting.
  - apply ACKNAK_waits_on_drops.
  - apply NAK_waits_on_drops.
Qed.
